(** * hiosctl.py: store FHIR bundles in S3, ingest them into HealthLake, doctor

    A shallow embedding of [support/bin/hiosctl.py].  The script is glue
    around six boto3 calls; what it decides itself is which calls are made,
    in which order, which exceptions it catches, what it prints and with
    which status the process ends.  The embedding therefore keeps

    - the boto3 session and clients as interfaces ([Boto3], [S3Client],
      [HealthLakeClient]) over an arbitrary service state: building a
      client and making a call each return a value or raise;
    - Python's control flow as a small state-and-exception monad [prog]
      that records each remote call and each printed line in a trace;
    - Python [str] values as [string] (one [ascii] per character). *)

From Stdlib Require Import String Ascii List ZArith Lia Bool.
From stdpp Require Import base tactics option list strings gmap.

Open Scope string_scope.
Open Scope list_scope.

(** ** Python string operations used by the script *)

Module Py.

(** [s.endswith(suffix)] *)
Fixpoint endswith (s suffix : string) : bool :=
  String.eqb s suffix ||
  match s with
  | EmptyString => false
  | String _ s' => endswith s' suffix
  end.

(** [s.replace(old, new)] for one-character [old] and [new]. *)
Fixpoint replace (s : string) (old new : ascii) : string :=
  match s with
  | EmptyString => EmptyString
  | String c s' =>
      String (if Ascii.eqb c old then new else c) (replace s' old new)
  end.

(** The slice [s[:n]]. *)
Fixpoint slice_to (n : nat) (s : string) : string :=
  match n, s with
  | S n', String c s' => String c (slice_to n' s')
  | _, _ => EmptyString
  end.

(** [sep.join(parts)] *)
Definition join (sep : string) (parts : list string) : string :=
  String.concat sep parts.

(** Occurrence of a character in a string. *)
Fixpoint contains (s : string) (c : ascii) : bool :=
  match s with
  | EmptyString => false
  | String d s' => Ascii.eqb d c || contains s' c
  end.

End Py.

(** ** Exceptions, results and the trace *)

(** The subclasses of [Exception] the script names, each carrying [str(e)].
    [ClientError] also carries [e.response['Error']['Code']].  In botocore
    [NoCredentialsError] and [PartialCredentialsError] derive from
    [BotoCoreError], not from [ClientError]; [OtherException] is any other
    subclass of [Exception] (an endpoint or connection error, a parameter
    validation error, an upload failure wrapped by the transfer manager). *)
Inductive exn : Type :=
  | ClientError (code msg : string)
  | NoCredentialsError (msg : string)
  | PartialCredentialsError (msg : string)
  | FileNotFoundError (msg : string)
  | OtherException (msg : string).

Definition str_exn (e : exn) : string :=
  match e with
  | ClientError _ m => m
  | NoCredentialsError m => m
  | PartialCredentialsError m => m
  | FileNotFoundError m => m
  | OtherException m => m
  end.

Definition is_client_error (e : exn) : bool :=
  match e with ClientError _ _ => true | _ => false end.

(** The request of [start_fhir_import_job], field by field. *)
Record ImportJobRequest : Type := mkImportJobRequest {
  DatastoreId : string;
  InputS3Uri : string;
  JobName : string;
  DataAccessRoleArn : string;
  OutputS3Uri : string;
  KmsKeyId : string
}.

(** What the process does that the outside can see. *)
Inductive event : Type :=
  | Print (line : string)
  | HeadObject (bucket key : string)
  | UploadFile (file_path bucket key content_type : string)
  | ListObjectsV2 (bucket : string)
  | StartFHIRImportJob (req : ImportJobRequest)
  | HeadBucket (bucket : string)
  | DescribeFHIRDatastore (datastore_id : string).

Definition is_remote (ev : event) : bool :=
  match ev with Print _ => false | _ => true end.

Definition is_upload (ev : event) : bool :=
  match ev with UploadFile _ _ _ _ => true | _ => false end.

Definition remote_calls (t : list event) : list event := List.filter is_remote t.
Definition uploads (t : list event) : list event := List.filter is_upload t.

Fixpoint printed (t : list event) : list string :=
  match t with
  | [] => []
  | Print l :: t' => l :: printed t'
  | _ :: t' => printed t'
  end.

Fixpoint import_requests (t : list event) : list ImportJobRequest :=
  match t with
  | [] => []
  | StartFHIRImportJob r :: t' => r :: import_requests t'
  | _ :: t' => import_requests t'
  end.

Fixpoint head_object_keys (t : list event) : list string :=
  match t with
  | [] => []
  | HeadObject _ k :: t' => k :: head_object_keys t'
  | _ :: t' => head_object_keys t'
  end.

(** How a Python computation ends: it returns, an exception propagates, or
    [sys.exit(code)] was called ([SystemExit] is not an [Exception], so no
    [except Exception] clause catches it). *)
Inductive result (A : Type) : Type :=
  | Ret (a : A)
  | Raise (e : exn)
  | Exit (code : Z).
Arguments Ret {A} a.
Arguments Raise {A} e.
Arguments Exit {A} code.

(** Exit status of the interpreter: 0 after a normal end, the argument of
    [sys.exit], and 1 (after a traceback) for an uncaught exception. *)
Definition exit_code {A} (r : result A) : Z :=
  match r with
  | Ret _ => 0
  | Raise _ => 1
  | Exit c => c
  end.

(** ** The monad *)

Definition prog (σ A : Type) : Type := σ -> result A * σ * list event.

Definition ret {σ A} (a : A) : prog σ A := fun s => (Ret a, s, []).

Definition bind {σ A B} (m : prog σ A) (f : A -> prog σ B) : prog σ B :=
  fun s =>
    match m s with
    | (Ret a, s1, t1) => let '(r, s2, t2) := f a s1 in (r, s2, t1 ++ t2)
    | (Raise e, s1, t1) => (Raise e, s1, t1)
    | (Exit c, s1, t1) => (Exit c, s1, t1)
    end.

Declare Scope prog_scope.
Delimit Scope prog_scope with prog.
Notation "x <- m ;;; k" := (bind m (fun x => k))
  (at level 100, m at next level, right associativity) : prog_scope.
Notation "m ;;; k" := (bind m (fun _ => k))
  (at level 100, right associativity) : prog_scope.

(** [try: m  except ...: h]: the clauses are the partial function [h];
    [None] means no clause matches and the exception propagates. *)
Definition try_except {σ A} (m : prog σ A) (h : exn -> option (prog σ A))
  : prog σ A :=
  fun s =>
    match m s with
    | (Raise e, s1, t1) =>
        match h e with
        | Some k => let '(r, s2, t2) := k s1 in (r, s2, t1 ++ t2)
        | None => (Raise e, s1, t1)
        end
    | other => other
    end.

Definition print {σ} (line : string) : prog σ unit :=
  fun s => (Ret tt, s, [Print line]).

Definition sys_exit {σ A} (code : Z) : prog σ A :=
  fun s => (Exit code, s, []).

(** A call of a client method: logged, then its value or its exception. *)
Definition call {σ A} (ev : event) (op : σ -> (A + exn) * σ) : prog σ A :=
  fun s =>
    let '(r, s1) := op s in
    (match r with inl a => Ret a | inr e => Raise e end, s1, [ev]).

(** [for x in xs: body x] *)
Fixpoint for_each {σ A} (xs : list A) (body : A -> prog σ unit) : prog σ unit :=
  match xs with
  | [] => ret tt
  | x :: xs' => (body x ;;; for_each xs' body)%prog
  end.

(** ** boto3: the session and the clients

    The state [σ] is whatever the two services and the configuration of
    boto3 amount to; each call maps a state to its answer (a value or an
    exception) and the next state.  [boto3.Session(...)] and
    [session.client(...)] send nothing, but they can raise: without a
    region [session.client('healthlake')] raises [NoRegionError], with an
    empty one [session.client('s3')] raises [ValueError].  The script calls
    them outside every [try]. *)

(** The arguments of [boto3.Session]; the session is known by them. *)
Record session : Type := mkSession {
  aws_access_key_id : option string;
  aws_secret_access_key : option string;
  region_name : option string
}.

Class Boto3 (σ : Type) : Type := {
  boto3_Session : session -> σ -> (unit + exn) * σ;
  session_client : session -> string -> σ -> (unit + exn) * σ
}.

Class S3Client (σ : Type) : Type := {
  head_object : string -> string -> σ -> (unit + exn) * σ;
  upload_file : string -> string -> string -> string -> σ -> (unit + exn) * σ;
  (** the keys of [response['Contents']], [None] when the response has no
      ['Contents'] entry *)
  list_objects_v2 : string -> σ -> (option (list string) + exn) * σ;
  head_bucket : string -> σ -> (unit + exn) * σ
}.

Class HealthLakeClient (σ : Type) : Type := {
  (** returns [response['JobId']] *)
  start_fhir_import_job : ImportJobRequest -> σ -> (string + exn) * σ;
  describe_fhir_datastore : string -> σ -> (unit + exn) * σ
}.

(** ** The host: path separator, environment, directories *)

(** A directory entry as [os.walk] sees it. *)
#[warnings="-register-all"]
Inductive node : Type :=
  | File
  | Dir (entries : list (string * node)).

(** [os.environ], [os.sep], [os.path.join] on a path and a plain name, and
    for each path whether [os.path.isdir] holds of it and, if so, what the
    directory contains.  [os.path] is [posixpath] or [ntpath] by the host;
    [ntpath.join] has rules of its own for drives and for '/'. *)
Record host : Type := mkHost {
  os_sep : ascii;
  join_str : string -> string -> string;
  environ : gmap string string;
  directory_at : string -> option (list (string * node))
}.

Definition os_getenv (h : host) (var : string) : option string :=
  environ h !! var.


(** A path that [os.walk top] produces: [top] and the names below it. *)
Record path : Type := mkPath {
  top : string;
  below : list string
}.

Definition sep_str (sep : ascii) : string := String sep EmptyString.

(** [posixpath.join(a, name)] for a name that does not begin with '/':
    a '/' is inserted unless [a] is empty or already ends with one. *)
Definition posixpath_join (a name : string) : string :=
  if String.eqb a "" || Py.endswith a "/" then a +:+ name
  else a +:+ "/" +:+ name.

Definition os_path_join (p : path) (name : string) : path :=
  mkPath (top p) (below p ++ [name]).

(** The text of a path, built by the successive [os.path.join]s. *)
Definition path_str (pjoin : string -> string -> string) (p : path) : string :=
  fold_left pjoin (below p) (top p).

(** [os.path.relpath(p, top)] for a path produced by walking [top]: the
    names below [top], separated by [os.sep]. *)
Definition os_path_relpath (sep : ascii) (p : path) : string :=
  Py.join (sep_str sep) (below p).

Definition dir_names (entries : list (string * node)) : list string :=
  flat_map (fun en => match snd en with Dir _ => [fst en] | File => [] end) entries.

Definition file_names (entries : list (string * node)) : list string :=
  flat_map (fun en => match snd en with File => [fst en] | Dir _ => [] end) entries.

(** [os.walk(top)], top-down: the triple of a directory first, then the
    walk of each of its sub-directories in turn. *)
Fixpoint walk_node (root : path) (n : node) {struct n}
  : list (path * list string * list string) :=
  match n with
  | File => []
  | Dir entries =>
      (root, dir_names entries, file_names entries) ::
      (fix sub (es : list (string * node)) :=
         match es with
         | [] => []
         | (name, child) :: es' => walk_node (os_path_join root name) child ++ sub es'
         end) entries
  end.

Definition os_walk (root : path) (entries : list (string * node))
  : list (path * list string * list string) :=
  walk_node root (Dir entries).

(** Every file below a node, as the list of names leading to it. *)
Fixpoint files_in (n : node) {struct n} : list (list string) :=
  match n with
  | File => [[]]
  | Dir entries =>
      (fix sub (es : list (string * node)) :=
         match es with
         | [] => []
         | (name, child) :: es' => map (cons name) (files_in child) ++ sub es'
         end) entries
  end.

Definition files_under (entries : list (string * node)) : list (list string) :=
  files_in (Dir entries).

(** ** The script *)

Definition backslash : ascii := "\"%char.
Definition slash : ascii := "/"%char.

(** The job name of line 89: [f'Ingest-{object_name[:55]}']. *)
Definition job_name (object_name : string) : string :=
  "Ingest-" +:+ Py.slice_to 55 object_name.

Definition s3_uri (bucket_name object_name : string) : string :=
  "s3://" +:+ bucket_name +:+ "/" +:+ object_name.

Definition import_request (bucket_name datastore_id data_access_role_arn
                           object_name : string) : ImportJobRequest :=
  {| DatastoreId := datastore_id;
     InputS3Uri := s3_uri bucket_name object_name;
     JobName := job_name object_name;
     DataAccessRoleArn := data_access_role_arn;
     OutputS3Uri := "s3://" +:+ bucket_name +:+ "/healthlake-start_fhir_import_job-output/";
     KmsKeyId := "" |}.

Definition skip_message (bucket_name object_name : string) : string :=
  "File already exists in s3://" +:+ bucket_name +:+ "/" +:+ object_name
    +:+ ", skipping upload.".

Definition uploaded_message (bucket_name object_name : string) : string :=
  "File uploaded successfully to s3://" +:+ bucket_name +:+ "/" +:+ object_name.

Definition required_env_vars : list string :=
  ["AWS_ACCESS_KEY_ID"; "AWS_SECRET_ACCESS_KEY"; "AWS_REGION"].

(** [[var for var in required_env_vars if os.getenv(var) is None]] *)
Definition missing_env_vars (h : host) : list string :=
  List.filter (fun var => match os_getenv h var with None => true | Some _ => false end)
    required_env_vars.

Definition usage_store : string :=
  "  ./hiosctl.py store-s3 --bucket-name your-bucket-name --path /path/to/synthea_fhir_bundles".
Definition usage_ingest : string :=
  "  ./hiosctl.py ingest-healthlake --bucket-name your-bucket-name --datastore-id your-datastore-id --darole-arn your-darole-arn".
Definition usage_doctor : string :=
  "  ./hiosctl.py doctor --bucket-name your-bucket-name --datastore-id your-datastore-id".

(** [sys.argv[i]]; read only where the length test before it has passed. *)
Definition argv_at (argv : list string) (i : nat) : string := nth i argv "".

(** The session of lines 52 to 56: its arguments are read from the
    environment, [None] for a variable that is not set. *)
Definition session_of (h : host) : session :=
  {| aws_access_key_id := os_getenv h "AWS_ACCESS_KEY_ID";
     aws_secret_access_key := os_getenv h "AWS_SECRET_ACCESS_KEY";
     region_name := os_getenv h "AWS_REGION" |}.

Section Script.
Context {σ : Type} `{B3 : Boto3 σ} `{S3 : S3Client σ} `{HL : HealthLakeClient σ}.

(** [boto3.Session(...)] and [session.client(name)]: nothing is sent, an
    exception propagates. *)
Definition new_session (h : host) : prog σ session :=
  fun s =>
    let '(r, s1) := boto3_Session (session_of h) s in
    (match r with inl _ => Ret (session_of h) | inr e => Raise e end, s1, []).

Definition new_client (sess : session) (service_name : string) : prog σ unit :=
  fun s =>
    let '(r, s1) := session_client sess service_name s in
    (match r with inl _ => Ret tt | inr e => Raise e end, s1, []).

(** The session and then one client per name, as each of the three
    functions begins. *)
Definition clients (h : host) (service_names : list string) : prog σ unit :=
  (sess <- new_session h ;;; for_each service_names (new_client sess))%prog.

Definition upload_to_s3 (file_path bucket_name object_name : string) : prog σ unit :=
  try_except
    (call (HeadObject bucket_name object_name) (head_object bucket_name object_name) ;;;
     print (skip_message bucket_name object_name))%prog
    (fun e =>
       match e with
       | ClientError code _ =>
           Some
             (if String.eqb code "404" then
                try_except
                  (call (UploadFile file_path bucket_name object_name "application/json")
                        (upload_file file_path bucket_name object_name "application/json") ;;;
                   print (uploaded_message bucket_name object_name))%prog
                  (fun e' =>
                     match e' with
                     | FileNotFoundError _ =>
                         Some (print ("The file " +:+ file_path +:+ " was not found."))
                     | NoCredentialsError _ =>
                         Some (print "Credentials not available.")
                     | PartialCredentialsError _ =>
                         Some (print "Incomplete credentials provided.")
                     | _ =>
                         Some (print ("An error occurred while uploading " +:+ file_path
                                        +:+ ": " +:+ str_exn e'))
                     end)
              else print ("An error occurred: " +:+ str_exn e))
       | _ => None
       end).

(** One file of the inner loop of [store_s3] (lines 61 to 64). *)
Definition store_file (pjoin : string -> string -> string) (sep : ascii)
    (bucket_name : string) (root : path) (filename : string) : prog σ unit :=
  if Py.endswith filename ".json" then
    let file_path := os_path_join root filename in
    let object_name := Py.replace (os_path_relpath sep file_path) backslash slash in
    upload_to_s3 (path_str pjoin file_path) bucket_name object_name
  else ret tt.

(** The two loops of [store_s3] (lines 59 to 64); [entries] is what the
    directory [synthea_fhir_bundles] holds when it is walked. *)
Definition store_bundles (pjoin : string -> string -> string) (sep : ascii)
    (bucket_name synthea_fhir_bundles : string)
    (entries : list (string * node)) : prog σ unit :=
  for_each (os_walk (mkPath synthea_fhir_bundles []) entries)
    (fun '(root, dirs, files) =>
       for_each files (store_file pjoin sep bucket_name root)).

(** [store_s3]: the session and the client, then the loops. *)
Definition store_s3 (h : host) (bucket_name synthea_fhir_bundles : string)
    (entries : list (string * node)) : prog σ unit :=
  (clients h ["s3"] ;;;
   store_bundles (join_str h) (os_sep h) bucket_name synthea_fhir_bundles entries)%prog.

(** One key of the loop of [ingest_healthlake] (lines 79 to 100). *)
Definition ingest_object (bucket_name datastore_id data_access_role_arn
                          object_name : string) : prog σ unit :=
  let uri := s3_uri bucket_name object_name in
  (print ("Ingesting " +:+ uri +:+ " into AWS HealthLake...") ;;;
   try_except
     (let req := import_request bucket_name datastore_id data_access_role_arn object_name in
      job_id <- call (StartFHIRImportJob req) (start_fhir_import_job req) ;;;
      print ("Ingestion started for " +:+ uri +:+ ". Job ID: " +:+ job_id))
     (fun e =>
        match e with
        | ClientError _ _ => Some (print ("Failed to ingest " +:+ uri +:+ ": " +:+ str_exn e))
        | _ => None
        end))%prog.

(** The [try] statement of [ingest_healthlake] (lines 75 to 108). *)
Definition ingest_listed (bucket_name datastore_id data_access_role_arn : string)
  : prog σ unit :=
  try_except
    (response <- call (ListObjectsV2 bucket_name) (list_objects_v2 bucket_name) ;;;
     match response with
     | Some contents =>
         for_each contents (ingest_object bucket_name datastore_id data_access_role_arn)
     | None => print "No objects found in the S3 bucket."
     end)%prog
    (fun e =>
       match e with
       | NoCredentialsError _ => Some (print "Credentials not available.")
       | PartialCredentialsError _ => Some (print "Incomplete credentials provided.")
       | _ => Some (print ("An error occurred: " +:+ str_exn e))
       end).

(** [ingest_healthlake]: the session and the two clients, then the [try]
    statement. *)
Definition ingest_healthlake (h : host)
    (bucket_name datastore_id data_access_role_arn : string) : prog σ unit :=
  (clients h ["s3"; "healthlake"] ;;;
   ingest_listed bucket_name datastore_id data_access_role_arn)%prog.

(** The two [try] statements of [doctor] (lines 128 to 140). *)
Definition doctor_checks (bucket_name datastore_id : string) : prog σ unit :=
  (try_except
     (call (HeadBucket bucket_name) (head_bucket bucket_name) ;;;
      print ("S3 bucket '" +:+ bucket_name +:+ "' exists and is accessible."))
     (fun e =>
        match e with
        | ClientError _ _ =>
            Some (print ("Could not access S3 bucket '" +:+ bucket_name +:+ "': " +:+ str_exn e) ;;;
                  sys_exit 1)
        | _ => None
        end) ;;;
   try_except
     (call (DescribeFHIRDatastore datastore_id) (describe_fhir_datastore datastore_id) ;;;
      print ("HealthLake Data Store ID '" +:+ datastore_id +:+ "' is valid and accessible."))
     (fun e =>
        match e with
        | ClientError _ _ =>
            Some (print ("Could not access HealthLake Data Store ID '" +:+ datastore_id
                           +:+ "': " +:+ str_exn e) ;;;
                  sys_exit 1)
        | _ => None
        end))%prog.

(** [doctor]: the environment, the session and the two clients, then the
    two checks. *)
Definition doctor (h : host) (bucket_name datastore_id : string) : prog σ unit :=
  ((match missing_env_vars h with
    | [] => print "All required environment variables are set."
    | missing =>
        print ("Missing required environment variables: " +:+ Py.join ", " missing) ;;;
        sys_exit 1
    end) ;;;
   clients h ["s3"; "healthlake"] ;;;
   doctor_checks bucket_name datastore_id)%prog.

Definition print_usage : prog σ unit :=
  (print "Usage:" ;;; print usage_store ;;; print usage_ingest ;;; print usage_doctor)%prog.

(** The [__main__] block. *)
Definition main (h : host) (argv : list string) : prog σ unit :=
  if (length argv <? 2)%nat then (print_usage ;;; sys_exit 1)%prog
  else
    let command := argv_at argv 1 in
    if String.eqb command "store-s3" then
      if negb (length argv =? 6)%nat
         || negb (String.eqb (argv_at argv 2) "--bucket-name")
         || negb (String.eqb (argv_at argv 4) "--path")
      then (print ("Usage: ./hiosctl.py store-s3 --bucket-name your-bucket-name --path /path/to/synthea_fhir_bundles") ;;;
            sys_exit 1)%prog
      else
        let bucket_name := argv_at argv 3 in
        let synthea_fhir_bundles := argv_at argv 5 in
        match directory_at h synthea_fhir_bundles with
        | None =>
            (print ("The specified path " +:+ synthea_fhir_bundles +:+ " is not a directory.") ;;;
             sys_exit 1)%prog
        | Some entries => store_s3 h bucket_name synthea_fhir_bundles entries
        end
    else if String.eqb command "ingest-healthlake" then
      if negb (length argv =? 8)%nat
         || negb (String.eqb (argv_at argv 2) "--bucket-name")
         || negb (String.eqb (argv_at argv 4) "--datastore-id")
         || negb (String.eqb (argv_at argv 6) "--darole-arn")
      then (print ("Usage: ./hiosctl.py ingest-healthlake --bucket-name your-bucket-name --datastore-id your-datastore-id --darole-arn your-darole-arn") ;;;
            sys_exit 1)%prog
      else ingest_healthlake h (argv_at argv 3) (argv_at argv 5) (argv_at argv 7)
    else if String.eqb command "doctor" then
      if negb (length argv =? 6)%nat
         || negb (String.eqb (argv_at argv 2) "--bucket-name")
         || negb (String.eqb (argv_at argv 4) "--datastore-id")
      then (print ("Usage: ./hiosctl.py doctor --bucket-name your-bucket-name --datastore-id your-datastore-id") ;;;
            sys_exit 1)%prog
      else doctor h (argv_at argv 3) (argv_at argv 5)
    else (print ("Unknown command: " +:+ command) ;;; print_usage ;;; sys_exit 1)%prog.

(** The three components of a run. *)
Definition outcome {A} (m : prog σ A) (s : σ) : result A := fst (fst (m s)).
Definition final {A} (m : prog σ A) (s : σ) : σ := snd (fst (m s)).
Definition trace {A} (m : prog σ A) (s : σ) : list event := snd (m s).

(** The status with which the process ends. *)
Definition process_exit_code (h : host) (argv : list string) (s : σ) : Z :=
  exit_code (outcome (main h argv) s).

End Script.

(** ** What the loops select *)

(** The files [store_s3] hands to [upload_to_s3], in the order of the two
    loops, each as the names that lead to it from the walked directory. *)
Definition is_bundle (filename : string) : bool := Py.endswith filename ".json".

(** The bundle files of one triple of the walk. *)
Definition select_bundles (triple : path * list string * list string)
  : list (list string) :=
  let '(root, dirs, files) := triple in
  map (fun filename => below root ++ [filename]) (List.filter is_bundle files).

Definition bundle_files (synthea_fhir_bundles : string)
    (entries : list (string * node)) : list (list string) :=
  flat_map select_bundles (os_walk (mkPath synthea_fhir_bundles []) entries).

Definition file_path_of (pjoin : string -> string -> string)
    (synthea_fhir_bundles : string) (names : list string) : string :=
  path_str pjoin (mkPath synthea_fhir_bundles names).

Definition object_name_of (sep : ascii) (names : list string) : string :=
  Py.replace (Py.join (sep_str sep) names) backslash slash.

(** The body of the loops of [store_s3] for one bundle file. *)
Definition upload_bundle {σ : Type} `{S3 : S3Client σ}
    (pjoin : string -> string -> string) (sep : ascii)
    (bucket_name synthea_fhir_bundles : string) (names : list string)
  : prog σ unit :=
  upload_to_s3 (file_path_of pjoin synthea_fhir_bundles names) bucket_name
    (object_name_of sep names).

(** What happened to one file, read off the line [upload_to_s3] printed. *)
Inductive upload_outcome : Type := Skipped | Uploaded | Failed.

Definition classify (line : string) : upload_outcome :=
  if String.prefix "File already exists in s3://" line then Skipped
  else if String.prefix "File uploaded successfully to s3://" line then Uploaded
  else Failed.

Definition upload_outcomes (t : list event) : list upload_outcome :=
  map classify (printed t).

Definition no_failure (t : list event) : bool :=
  forallb (fun o => match o with Failed => false | _ => true end) (upload_outcomes t).

(** The trace of a file that is found at its key and skipped. *)
Definition skipped_trace (sep : ascii) (bucket_name : string) (names : list string)
  : list event :=
  [HeadObject bucket_name (object_name_of sep names);
   Print (skip_message bucket_name (object_name_of sep names))].

Section Submitted.
Context {σ : Type} `{HL : HealthLakeClient σ}.

(** The keys of a listing for which [ingest_healthlake] calls
    [start_fhir_import_job]: each in turn, up to and including the first
    one whose call raises something else than [ClientError]. *)
Fixpoint submitted_keys (bucket_name datastore_id data_access_role_arn : string)
    (keys : list string) (s : σ) : list string :=
  match keys with
  | [] => []
  | k :: ks =>
      k ::
      match start_fhir_import_job
              (import_request bucket_name datastore_id data_access_role_arn k) s with
      | (inl _, s1) => submitted_keys bucket_name datastore_id data_access_role_arn ks s1
      | (inr e, s1) =>
          if is_client_error e
          then submitted_keys bucket_name datastore_id data_access_role_arn ks s1
          else []
      end
  end.

End Submitted.

(** ** A model of the two services

    A bucket holds objects; a call can be made to fail.  [head_object]
    answers from the objects unless a fault is set for the key, and
    [upload_file] stores the object unless a fault is set for the file.
    Building a session or a client fails when a fault is set for it. *)
Record service : Type := mkService {
  session_fault : session -> option exn;
  client_fault : session -> string -> option exn;
  objects : gset (string * string);
  head_fault : string -> string -> option exn;
  put_fault : string -> string -> string -> option exn;
  listing : string -> option (list string) + exn;
  bucket_check : string -> unit + exn;
  import_result : ImportJobRequest -> string + exn;
  datastore_check : string -> unit + exn
}.

Definition not_found : exn :=
  ClientError "404" "An error occurred (404) when calling the HeadObject operation: Not Found".

Definition service_head_object (bucket key : string) (w : service)
  : (unit + exn) * service :=
  match head_fault w bucket key with
  | Some e => (inr e, w)
  | None =>
      if bool_decide ((bucket, key) ∈ objects w) then (inl tt, w)
      else (inr not_found, w)
  end.

Definition put_object (bucket key : string) (w : service) : service :=
  mkService (session_fault w) (client_fault w)
    ({[ (bucket, key) ]} ∪ objects w) (head_fault w) (put_fault w)
    (listing w) (bucket_check w) (import_result w) (datastore_check w).

Definition service_upload_file (file_path bucket key content_type : string)
    (w : service) : (unit + exn) * service :=
  match put_fault w file_path bucket key with
  | Some e => (inr e, w)
  | None => (inl tt, put_object bucket key w)
  end.

#[export] Instance service_boto3 : Boto3 service := {
  boto3_Session := fun sess w =>
    (match session_fault w sess with Some e => inr e | None => inl tt end, w);
  session_client := fun sess name w =>
    (match client_fault w sess name with Some e => inr e | None => inl tt end, w)
}.

#[export] Instance service_s3 : S3Client service := {
  head_object := service_head_object;
  upload_file := service_upload_file;
  list_objects_v2 := fun bucket w => (listing w bucket, w);
  head_bucket := fun bucket w => (bucket_check w bucket, w)
}.

#[export] Instance service_healthlake : HealthLakeClient service := {
  start_fhir_import_job := fun req w => (import_result w req, w);
  describe_fhir_datastore := fun id w => (datastore_check w id, w)
}.

(** A service on which every call succeeds, holding the given objects. *)
Definition healthy (objs : gset (string * string)) (keys : option (list string))
  : service :=
  mkService (fun _ => None) (fun _ _ => None) objs (fun _ _ => None) (fun _ _ _ => None)
    (fun _ => inl keys) (fun _ => inl tt) (fun _ => inl "job-1") (fun _ => inl tt).

(** ** Concrete hosts and services used in the examples *)

Definition all_set : gmap string string :=
  {[ "AWS_ACCESS_KEY_ID" := "AKIA"; "AWS_SECRET_ACCESS_KEY" := "secret";
     "AWS_REGION" := "us-east-1" ]}.

Definition bundles_dir : list (string * node) :=
  [("a.json", File); ("b.json", File); ("c.txt", File)].

Definition posix_host (env : gmap string string) : host :=
  mkHost slash posixpath_join env
    (fun p => if String.eqb p "/data" then Some bundles_dir else None).

Definition access_denied : exn :=
  ClientError "403" "An error occurred (403) when calling the HeadBucket operation: Forbidden".

Definition no_credentials : exn := NoCredentialsError "Unable to locate credentials".

Definition store_argv : list string :=
  ["./hiosctl.py"; "store-s3"; "--bucket-name"; "bkt"; "--path"; "/data"].

Definition ingest_argv : list string :=
  ["./hiosctl.py"; "ingest-healthlake"; "--bucket-name"; "bkt";
   "--datastore-id"; "ds1"; "--darole-arn"; "arn:aws:iam::123456789012:role/hl"].

(** No credentials anywhere: every S3 call raises [NoCredentialsError]. *)
Definition without_credentials : service :=
  mkService (fun _ => None) (fun _ _ => None) ∅
    (fun _ _ => Some no_credentials) (fun _ _ _ => Some no_credentials)
    (fun _ => inr no_credentials) (fun _ => inr no_credentials)
    (fun _ => inr no_credentials) (fun _ => inr no_credentials).

(** The existence check is refused for every key. *)
Definition head_forbidden : service :=
  mkService (fun _ => None) (fun _ _ => None) ∅ (fun _ _ => Some access_denied) (fun _ _ _ => None)
    (fun _ => inl None) (fun _ => inl tt) (fun _ => inl "job-1") (fun _ => inl tt).

(** An empty bucket that cannot be written: every upload fails. *)
Definition read_only : service :=
  mkService (fun _ => None) (fun _ _ => None) ∅ (fun _ _ => None)
    (fun _ _ _ => Some (OtherException "Failed to upload: AccessDenied"))
    (fun _ => inl None) (fun _ => inl tt) (fun _ => inl "job-1") (fun _ => inl tt).

(** The existence check of the service never answers 'not found' by way
    of a fault: a 404 is given for absent objects only. *)
Definition truthful (w : service) : Prop :=
  forall bucket key msg, head_fault w bucket key <> Some (ClientError "404" msg).

(** Along a run of [store_s3] from [s]: no existence check raises an
    exception other than [ClientError]. *)
Fixpoint existence_checks_answered {σ : Type} `{S3 : S3Client σ}
    (pjoin : string -> string -> string) (sep : ascii)
    (bucket_name synthea_fhir_bundles : string) (items : list (list string))
    (s : σ) : bool :=
  match items with
  | [] => true
  | names :: rest =>
      match fst (head_object bucket_name (object_name_of sep names) s) with
      | inl _ => true
      | inr e => is_client_error e
      end
      && existence_checks_answered pjoin sep bucket_name synthea_fhir_bundles rest
           (final (upload_bundle pjoin sep bucket_name synthea_fhir_bundles names) s)
  end.

(** The line the outer handlers of [ingest_healthlake] print for [e]. *)
Definition ingest_error_line (e : exn) : string :=
  match e with
  | NoCredentialsError _ => "Credentials not available."
  | PartialCredentialsError _ => "Incomplete credentials provided."
  | _ => "An error occurred: " +:+ str_exn e
  end.

(** A bucket with two objects whose first import call fails on the way
    to the service. *)
Definition unreachable_import : service :=
  mkService (fun _ => None) (fun _ _ => None) ∅ (fun _ _ => None) (fun _ _ _ => None)
    (fun _ => inl (Some ["k1.json"; "k2.json"])) (fun _ => inl tt)
    (fun _ => inr (OtherException "Could not connect to the endpoint URL"))
    (fun _ => inl tt).

(** The bucket cannot be listed. *)
Definition unlistable : service :=
  mkService (fun _ => None) (fun _ _ => None) ∅ (fun _ _ => None) (fun _ _ _ => None)
    (fun _ => inr access_denied) (fun _ => inl tt) (fun _ => inl "job-1")
    (fun _ => inl tt).

(** The bucket cannot be reached by [head_bucket]; the datastore can. *)
Definition bucket_forbidden : service :=
  mkService (fun _ => None) (fun _ _ => None) ∅ (fun _ _ => None) (fun _ _ _ => None)
    (fun _ => inl None) (fun _ => inr access_denied) (fun _ => inl "job-1")
    (fun _ => inl tt).

Definition doctor_argv : list string :=
  ["./hiosctl.py"; "doctor"; "--bucket-name"; "bkt"; "--datastore-id"; "ds1"].

Definition region_only : gmap string string := {[ "AWS_REGION" := "us-east-1" ]}.

(** ** Lines and services used in the further properties *)

(** The line [upload_to_s3] prints after the put of [file_path], by the
    answer of [upload_file] (lines 39 to 47). *)
Definition upload_report (file_path bucket_name object_name : string)
    (answer : unit + exn) : string :=
  match answer with
  | inl _ => uploaded_message bucket_name object_name
  | inr (FileNotFoundError _) => "The file " +:+ file_path +:+ " was not found."
  | inr (NoCredentialsError _) => "Credentials not available."
  | inr (PartialCredentialsError _) => "Incomplete credentials provided."
  | inr e => "An error occurred while uploading " +:+ file_path +:+ ": " +:+ str_exn e
  end.

(** The line [ingest_healthlake] prints after the import call of one
    object, by the answer of [start_fhir_import_job] (lines 98 and 100). *)
Definition ingest_report (uri : string) (answer : string + exn) : string :=
  match answer with
  | inl job_id => "Ingestion started for " +:+ uri +:+ ". Job ID: " +:+ job_id
  | inr e => "Failed to ingest " +:+ uri +:+ ": " +:+ str_exn e
  end.

(** The bucket can be reached; the datastore cannot. *)
Definition datastore_forbidden : service :=
  mkService (fun _ => None) (fun _ _ => None) ∅ (fun _ _ => None) (fun _ _ _ => None)
    (fun _ => inl None) (fun _ => inl tt) (fun _ => inl "job-1")
    (fun _ => inr access_denied).

(** The local file has gone when the put reads it. *)
Definition file_vanished : service :=
  mkService (fun _ => None) (fun _ _ => None) ∅ (fun _ _ => None)
    (fun _ _ _ => Some (FileNotFoundError "No such file or directory"))
    (fun _ => inl None) (fun _ => inl tt) (fun _ => inl "job-1") (fun _ => inl tt).

(** A listing of two keys; the import of every object is refused by the
    service. *)
Definition import_refused : service :=
  mkService (fun _ => None) (fun _ _ => None) ∅ (fun _ _ => None) (fun _ _ _ => None)
    (fun _ => inl (Some ["k1.json"; "k2.json"])) (fun _ => inl tt)
    (fun _ => inr (ClientError "ValidationException" "Invalid role"))
    (fun _ => inl tt).

Definition nested_dir : list (string * node) :=
  [("p1", Dir [("a.json", File); ("notes.md", File);
               ("deep", Dir [("b.json", File)])]);
   ("c.json", File); ("empty", Dir [])].


(** ** Hosts and services whose clients cannot always be built *)

(** What botocore does with the region when a client is built: an empty
    region gives no valid endpoint, and without any region only the S3
    client can be built. *)
Definition region_rule (sess : session) (service_name : string) : option exn :=
  match region_name sess with
  | Some region =>
      if String.eqb region ""
      then Some (OtherException "Invalid endpoint: https://s3..amazonaws.com")
      else None
  | None =>
      if String.eqb service_name "s3" then None
      else Some (OtherException "You must specify a region.")
  end.

(** A service on which every call succeeds once its client is built. *)
Definition regional (keys : option (list string)) : service :=
  mkService (fun _ => None) region_rule ∅ (fun _ _ => None) (fun _ _ _ => None)
    (fun _ => inl keys) (fun _ => inl tt) (fun _ => inl "job-1") (fun _ => inl tt).

(** The three variables set, the region to the empty string. *)
Definition empty_region : gmap string string :=
  {[ "AWS_ACCESS_KEY_ID" := "AKIA"; "AWS_SECRET_ACCESS_KEY" := "secret";
     "AWS_REGION" := "" ]}.

(** Credentials set, no region. *)
Definition keys_only : gmap string string :=
  {[ "AWS_ACCESS_KEY_ID" := "AKIA"; "AWS_SECRET_ACCESS_KEY" := "secret" ]}.

(** A POSIX directory with a file whose name holds a backslash. *)
Definition backslash_dir : list (string * node) :=
  [("x\y.json", File)].

(** The replacement of line 63 on one character. *)
Definition to_slash (c : ascii) : ascii :=
  if Ascii.eqb c backslash then slash else c.

(** * Properties *)

(** ** The monad and the loops *)

Section MonadFacts.
Context {σ : Type}.

Lemma bind_ret_l {A} (k : unit -> prog σ A) (s : σ) :
  bind (ret tt) k s = k tt s.
Proof.
  unfold bind, ret. destruct (k tt s) as [[r s2] t2]. reflexivity.
Qed.

Lemma bind_ret_r (m : prog σ unit) (s : σ) :
  bind m (fun _ => ret tt) s = m s.
Proof.
  unfold bind, ret. destruct (m s) as [[[[]|e|c] s1] t1]; try reflexivity.
  now rewrite app_nil_r.
Qed.

Lemma bind_assoc {A B C} (m : prog σ A) (k : A -> prog σ B) (l : B -> prog σ C)
    (s : σ) :
  bind (bind m k) l s = bind m (fun a => bind (k a) l) s.
Proof.
  unfold bind. destruct (m s) as [[[a|e|c] s1] t1]; try reflexivity.
  destruct (k a s1) as [[[b|e|c] s2] t2]; try reflexivity.
  destruct (l b s2) as [[r s3] t3]. now rewrite app_assoc.
Qed.

Lemma bind_ext {A B} (m m' : prog σ A) (k k' : A -> prog σ B) (s : σ) :
  m s = m' s -> (forall a s1, k a s1 = k' a s1) -> bind m k s = bind m' k' s.
Proof.
  intros Hm Hk. unfold bind. rewrite Hm.
  destruct (m' s) as [[[a|e|c] s1] t1]; try reflexivity. now rewrite Hk.
Qed.

Lemma for_each_ext {A} (xs : list A) (f g : A -> prog σ unit) :
  (forall x s, In x xs -> f x s = g x s) ->
  forall s, for_each xs f s = for_each xs g s.
Proof.
  induction xs as [|x xs IH]; intros Hfg s; simpl; [reflexivity|].
  apply bind_ext.
  - apply Hfg. now left.
  - intros _ s1. apply IH. intros y s2 Hy. apply Hfg. now right.
Qed.

Lemma for_each_app {A} (xs ys : list A) (f : A -> prog σ unit) (s : σ) :
  for_each (xs ++ ys) f s = bind (for_each xs f) (fun _ => for_each ys f) s.
Proof.
  revert s. induction xs as [|x xs IH]; intros s; simpl.
  - now rewrite bind_ret_l.
  - rewrite bind_assoc. apply bind_ext; [reflexivity|]. intros _ s1. apply IH.
Qed.

Lemma for_each_flat_map {A B} (g : A -> list B) (xs : list A)
    (f : B -> prog σ unit) (s : σ) :
  for_each (flat_map g xs) f s = for_each xs (fun x => for_each (g x) f) s.
Proof.
  revert s. induction xs as [|x xs IH]; intros s; simpl; [reflexivity|].
  rewrite for_each_app. apply bind_ext; [reflexivity|]. intros _ s1. apply IH.
Qed.

Lemma for_each_map {A B} (g : A -> B) (xs : list A) (f : B -> prog σ unit) (s : σ) :
  for_each (map g xs) f s = for_each xs (fun x => f (g x)) s.
Proof.
  revert s. induction xs as [|x xs IH]; intros s; simpl; [reflexivity|].
  apply bind_ext; [reflexivity|]. intros _ s1. apply IH.
Qed.

Lemma for_each_filter {A} (p : A -> bool) (xs : list A) (f : A -> prog σ unit)
    (s : σ) :
  for_each (List.filter p xs) f s
  = for_each xs (fun x => if p x then f x else ret tt) s.
Proof.
  revert s. induction xs as [|x xs IH]; intros s; simpl; [reflexivity|].
  destruct (p x); simpl.
  - apply bind_ext; [reflexivity|]. intros _ s1. apply IH.
  - rewrite bind_ret_l. apply IH.
Qed.

End MonadFacts.

(** ** The trace projections distribute over concatenation *)

Lemma printed_app (t1 t2 : list event) : printed (t1 ++ t2) = printed t1 ++ printed t2.
Proof.
  induction t1 as [|[] t1 IH]; simpl; try rewrite IH; reflexivity.
Qed.

Lemma import_requests_app (t1 t2 : list event) :
  import_requests (t1 ++ t2) = import_requests t1 ++ import_requests t2.
Proof.
  induction t1 as [|[] t1 IH]; simpl; try rewrite IH; reflexivity.
Qed.

Lemma uploads_app (t1 t2 : list event) : uploads (t1 ++ t2) = uploads t1 ++ uploads t2.
Proof. apply List.filter_app. Qed.

Lemma remote_calls_app (t1 t2 : list event) :
  remote_calls (t1 ++ t2) = remote_calls t1 ++ remote_calls t2.
Proof. apply List.filter_app. Qed.

Lemma no_failure_app (t1 t2 : list event) :
  no_failure (t1 ++ t2) = no_failure t1 && no_failure t2.
Proof.
  unfold no_failure, upload_outcomes. now rewrite printed_app, map_app, forallb_app.
Qed.

(** ** Python strings *)

Lemma endswith_append (s suffix : string) :
  Py.endswith (s +:+ suffix) suffix = true.
Proof.
  induction s as [|c s IH].
  - change ("" +:+ suffix) with suffix. destruct suffix; cbn [Py.endswith];
      now rewrite String.eqb_refl.
  - change (String c s +:+ suffix) with (String c (s +:+ suffix)).
    cbn [Py.endswith]. rewrite IH. apply orb_true_r.
Qed.

Lemma endswith_spec (s suffix : string) :
  Py.endswith s suffix = true <-> exists front, s = front +:+ suffix.
Proof.
  split.
  - induction s as [|c s IH]; cbn [Py.endswith]; intros H.
    + rewrite orb_false_r in H. apply String.eqb_eq in H. exists "". now subst.
    + apply orb_true_iff in H as [H|H].
      * apply String.eqb_eq in H. exists "". now subst.
      * destruct (IH H) as [front ->]. now exists (String c front).
  - intros [front ->]. apply endswith_append.
Qed.

Lemma slice_to_length (n : nat) (s : string) :
  String.length (Py.slice_to n s) = Nat.min n (String.length s).
Proof.
  revert s. induction n as [|n IH]; intros [|c s]; simpl; try reflexivity.
  now rewrite IH.
Qed.

Lemma slice_to_prefix (n : nat) (s : string) :
  String.prefix (Py.slice_to n s) s = true.
Proof.
  revert s. induction n as [|n IH]; intros [|c s]; simpl; try reflexivity.
  rewrite IH. now destruct (ascii_dec c c).
Qed.

Lemma slice_to_all (n : nat) (s : string) :
  (String.length s <= n)%nat -> Py.slice_to n s = s.
Proof.
  revert s. induction n as [|n IH]; intros [|c s]; simpl; intros H;
    try reflexivity; try lia.
  rewrite IH; [reflexivity|lia].
Qed.

Lemma string_length_append (s1 s2 : string) :
  String.length (s1 +:+ s2) = (String.length s1 + String.length s2)%nat.
Proof. induction s1 as [|c s1 IH]; simpl; [reflexivity|now rewrite IH]. Qed.

Lemma replace_append (s1 s2 : string) (old new : ascii) :
  Py.replace (s1 +:+ s2) old new = Py.replace s1 old new +:+ Py.replace s2 old new.
Proof. induction s1 as [|c s1 IH]; simpl; [reflexivity|now rewrite IH]. Qed.

Lemma replace_absent (s : string) (old new : ascii) :
  Py.contains s old = false -> Py.replace s old new = s.
Proof.
  induction s as [|c s IH]; simpl; [reflexivity|]. intros H.
  apply orb_false_iff in H as [Hc Hs]. rewrite Hc, IH; auto.
Qed.

(** ** [upload_to_s3], case by case on the answer of [head_object] *)

Section UploadFacts.
Context {σ : Type} `{S3 : S3Client σ}.

Lemma upload_to_s3_found (file_path bucket key : string) (s s1 : σ) :
  head_object bucket key s = (inl tt, s1) ->
  upload_to_s3 file_path bucket key s
  = (Ret tt, s1, [HeadObject bucket key; Print (skip_message bucket key)]).
Proof.
  intros H. unfold upload_to_s3, try_except, bind, call, print. now rewrite H.
Qed.

Lemma upload_to_s3_rejected (file_path bucket key code msg : string) (s s1 : σ) :
  head_object bucket key s = (inr (ClientError code msg), s1) ->
  String.eqb code "404" = false ->
  upload_to_s3 file_path bucket key s
  = (Ret tt, s1, [HeadObject bucket key; Print ("An error occurred: " +:+ msg)]).
Proof.
  intros H Hc. unfold upload_to_s3, try_except, bind, call, print.
  now rewrite H, Hc.
Qed.

Lemma upload_to_s3_escapes (file_path bucket key : string) (e : exn) (s s1 : σ) :
  head_object bucket key s = (inr e, s1) ->
  is_client_error e = false ->
  upload_to_s3 file_path bucket key s = (Raise e, s1, [HeadObject bucket key]).
Proof.
  intros H He. unfold upload_to_s3, try_except, bind, call, print. rewrite H.
  destruct e; try reflexivity. discriminate He.
Qed.

Lemma upload_to_s3_absent (file_path bucket key msg : string) (s s1 : σ) :
  head_object bucket key s = (inr (ClientError "404" msg), s1) ->
  exists line,
    upload_to_s3 file_path bucket key s
    = (Ret tt, snd (upload_file file_path bucket key "application/json" s1),
       [HeadObject bucket key;
        UploadFile file_path bucket key "application/json";
        Print line])
    /\ match fst (upload_file file_path bucket key "application/json" s1) with
       | inl _ => line = uploaded_message bucket key
       | inr _ => classify line = Failed
       end.
Proof.
  intros H. unfold upload_to_s3, try_except, bind, call, print. rewrite H.
  cbn [String.eqb Ascii.eqb Bool.eqb].
  destruct (upload_file file_path bucket key "application/json" s1) as [[u|e] s2];
    cbn [fst snd].
  - eexists. split; reflexivity.
  - destruct e; (eexists; split; reflexivity).
Qed.

(** [upload_to_s3] ends by raising exactly when [head_object] raised an
    exception that is not a [ClientError]; it never calls [sys.exit]. *)
Lemma upload_to_s3_outcome (file_path bucket key : string) (s : σ) :
  outcome (upload_to_s3 file_path bucket key) s
  = match fst (head_object bucket key s) with
    | inl _ => Ret tt
    | inr e => if is_client_error e then Ret tt else Raise e
    end.
Proof.
  unfold outcome.
  destruct (head_object bucket key s) as [[[]|e] s1] eqn:H; cbn [fst].
  - now rewrite (upload_to_s3_found _ _ _ _ _ H).
  - destruct e as [code msg| | | |];
      try (rewrite (upload_to_s3_escapes _ _ _ _ _ _ H); reflexivity).
    destruct (String.eqb code "404") eqn:Hc.
    + apply String.eqb_eq in Hc. subst code.
      destruct (upload_to_s3_absent file_path _ _ _ _ _ H) as (line & -> & _).
      reflexivity.
    + now rewrite (upload_to_s3_rejected _ _ _ _ _ _ _ H Hc).
Qed.

End UploadFacts.

(** ** The per-file upload step *)

Section UploadStep.
Context {σ : Type} `{S3 : S3Client σ}.

(** X21.  In [upload_to_s3] a put is issued exactly when [head_object]
    raised a [ClientError] whose code is '404', and then it is the one put
    of this file.  For any other error of the existence check no put is
    issued and the file is not reported as already present: a [ClientError]
    is printed and the step returns, any other exception propagates to the
    caller. *)
Theorem upload_to_s3_put_iff_404 (file_path bucket key : string) (s : σ) :
  let t := trace (upload_to_s3 file_path bucket key) s in
  let answer := fst (head_object bucket key s) in
  ((uploads t = [UploadFile file_path bucket key "application/json"]
    /\ exists msg, answer = inr (ClientError "404" msg))
   \/ (uploads t = [] /\ forall msg, answer <> inr (ClientError "404" msg)))
  /\ (forall e, answer = inr e -> (forall msg, e <> ClientError "404" msg) ->
      uploads t = []
      /\ ~ In (skip_message bucket key) (printed t)
      /\ match e with
         | ClientError _ msg =>
             outcome (upload_to_s3 file_path bucket key) s = Ret tt
             /\ printed t = ["An error occurred: " +:+ msg]
         | _ =>
             outcome (upload_to_s3 file_path bucket key) s = Raise e
             /\ printed t = []
         end).
Proof.
  cbn zeta. unfold trace, outcome.
  destruct (head_object bucket key s) as [[[]|e] s1] eqn:H; cbn [fst].
  - rewrite (upload_to_s3_found file_path _ _ _ _ H). split.
    + right. split; [reflexivity|]. intros msg Hm. discriminate Hm.
    + intros e He. discriminate He.
  - destruct e as [code msg|m|m|m|m].
    + destruct (String.eqb code "404") eqn:Hc.
      * apply String.eqb_eq in Hc. subst code.
        destruct (upload_to_s3_absent file_path _ _ _ _ _ H) as (line & -> & _).
        split.
        -- left. split; [reflexivity|]. now exists msg.
        -- intros e He Hne. injection He as <-. now destruct (Hne msg).
      * rewrite (upload_to_s3_rejected file_path _ _ _ _ _ _ H Hc). split.
        -- right. split; [reflexivity|]. intros msg' Hm. injection Hm as -> _.
           discriminate Hc.
        -- intros e He _. injection He as <-. cbn.
           split; [reflexivity|]. split; [|split; reflexivity].
           intros [Hin|[]]. discriminate Hin.
    + rewrite (upload_to_s3_escapes file_path _ _ _ _ _ H eq_refl). split.
      * right. split; [reflexivity|]. intros msg Hm. discriminate Hm.
      * intros e He _. injection He as <-. cbn. intuition.
    + rewrite (upload_to_s3_escapes file_path _ _ _ _ _ H eq_refl). split.
      * right. split; [reflexivity|]. intros msg Hm. discriminate Hm.
      * intros e He _. injection He as <-. cbn. intuition.
    + rewrite (upload_to_s3_escapes file_path _ _ _ _ _ H eq_refl). split.
      * right. split; [reflexivity|]. intros msg Hm. discriminate Hm.
      * intros e He _. injection He as <-. cbn. intuition.
    + rewrite (upload_to_s3_escapes file_path _ _ _ _ _ H eq_refl). split.
      * right. split; [reflexivity|]. intros msg Hm. discriminate Hm.
      * intros e He _. injection He as <-. cbn. intuition.
Qed.

End UploadStep.

(** An existence check refused with code 403: no put, nothing reported as
    present, the error line printed. *)
Lemma upload_to_s3_put_iff_404_witness :
  uploads (trace (upload_to_s3 "/data/a.json" "bkt" "a.json") head_forbidden) = []
  /\ ~ In (skip_message "bkt" "a.json")
         (printed (trace (upload_to_s3 "/data/a.json" "bkt" "a.json") head_forbidden))
  /\ outcome (upload_to_s3 "/data/a.json" "bkt" "a.json") head_forbidden = Ret tt
  /\ printed (trace (upload_to_s3 "/data/a.json" "bkt" "a.json") head_forbidden)
     = ["An error occurred: " +:+ str_exn access_denied].
Proof.
  destruct (upload_to_s3_put_iff_404 "/data/a.json" "bkt" "a.json" head_forbidden)
    as [_ H].
  apply (H access_denied); [reflexivity|]. intros msg Hm. discriminate Hm.
Defined.

(** ** The walk and the selection of bundle files *)

Lemma node_nested_ind (P : node -> Prop) :
  P File ->
  (forall entries, List.Forall (fun en => P (snd en)) entries -> P (Dir entries)) ->
  forall n, P n.
Proof.
  intros HFile HDir. fix IH 1. intros [|entries].
  - exact HFile.
  - apply HDir. induction entries as [|[name child] es IHes].
    + constructor.
    + constructor; [apply IH|exact IHes].
Qed.

Lemma walk_node_top (n : node) :
  forall root triple,
    In triple (walk_node root n) -> top (fst (fst triple)) = top root.
Proof.
  induction n as [|entries IH] using node_nested_ind; intros root triple Hin.
  - destruct Hin.
  - cbn [walk_node] in Hin. destruct Hin as [<-|Hin]; [reflexivity|].
    induction entries as [|[name child] es IHes]; [destruct Hin|].
    apply in_app_or in Hin as [Hin|Hin].
    + apply Forall_inv in IH. now rewrite (IH _ _ Hin).
    + apply IHes; [now apply Forall_inv_tail in IH|exact Hin].
Qed.

Lemma last_cons_nonempty (name : string) (rel : list string) :
  rel <> [] -> List.last (name :: rel) "" = List.last rel "".
Proof. destruct rel; [congruence|reflexivity]. Qed.

Lemma in_file_names (name : string) (entries : list (string * node)) :
  In name (file_names entries) <-> In (name, File) entries.
Proof.
  unfold file_names. rewrite in_flat_map. split.
  - intros [[n [|es]] [Hin Hn]]; cbn in Hn; [|destruct Hn].
    destruct Hn as [<-|[]]. exact Hin.
  - intros Hin. exists (name, File). split; [exact Hin|now left].
Qed.

(** Membership in the files below a directory, entry by entry. *)
Lemma in_files_in_dir (rel : list string) (entries : list (string * node)) :
  In rel (files_in (Dir entries)) <->
  exists name child rest,
    In (name, child) entries /\ rel = name :: rest /\ In rest (files_in child).
Proof.
  cbn [files_in]. induction entries as [|[name child] es IH].
  - split; [intros []|intros (? & ? & ? & [] & _)].
  - rewrite in_app_iff, in_map_iff, IH. split.
    + intros [(rest & <- & Hrest)|(n & c & rest & Hin & -> & Hrest)].
      * exists name, child, rest. split; [now left|now split].
      * exists n, c, rest. split; [now right|now split].
    + intros (n & c & rest & [Heq|Hin] & -> & Hrest).
      * injection Heq as <- <-. left. now exists rest.
      * right. now exists n, c, rest.
Qed.

(** Membership in the triples a directory walk goes through. *)
Lemma in_walk_dir (triple : path * list string * list string) (root : path)
    (entries : list (string * node)) :
  In triple (walk_node root (Dir entries)) <->
  triple = (root, dir_names entries, file_names entries)
  \/ exists name child,
       In (name, child) entries
       /\ In triple (walk_node (os_path_join root name) child).
Proof.
  cbn [walk_node In].
  assert (forall es : list (string * node),
    In triple
      ((fix sub (es : list (string * node)) :=
          match es with
          | [] => []
          | (name, child) :: es' => walk_node (os_path_join root name) child ++ sub es'
          end) es) <->
    exists name child,
      In (name, child) es /\ In triple (walk_node (os_path_join root name) child))
    as Hsub.
  { induction es as [|[name child] es IH].
    - split; [intros []|intros (? & ? & [] & _)].
    - rewrite in_app_iff, IH. split.
      + intros [H|(n & c & Hin & H)].
        * exists name, child. split; [now left|exact H].
        * exists n, c. split; [now right|exact H].
      + intros (n & c & [Heq|Hin] & H).
        * injection Heq as <- <-. now left.
        * right. now exists n, c. }
  rewrite Hsub. split; intros [H|H]; auto.
Qed.

(** The walk selects a file exactly when it lies below the walked node and
    its name ends in '.json'. *)
Lemma selected_iff (n : node) :
  forall root names,
    In names (flat_map select_bundles (walk_node root n)) <->
    exists rel,
      names = below root ++ rel /\ In rel (files_in n) /\ rel <> []
      /\ is_bundle (List.last rel "") = true.
Proof.
  induction n as [|entries IH] using node_nested_ind; intros root names.
  - cbn. split; [intros []|]. intros (rel & _ & [<-|[]] & Hne & _). congruence.
  - rewrite List.Forall_forall in IH. rewrite in_flat_map. split.
    + intros (triple & Hin & Hsel). apply in_walk_dir in Hin as [->|Hin].
      * cbn [select_bundles] in Hsel. apply in_map_iff in Hsel as (f & <- & Hf).
        apply filter_In in Hf as [Hf Hb]. apply in_file_names in Hf.
        exists [f]. split; [reflexivity|]. split; [|split; [congruence|exact Hb]].
        apply in_files_in_dir. exists f, File, []. split; [exact Hf|].
        split; [reflexivity|now left].
      * destruct Hin as (name & child & Hen & Hin).
        assert (In names (flat_map select_bundles
                            (walk_node (os_path_join root name) child))) as Hsub
          by (apply in_flat_map; eauto).
        apply (IH (name, child) Hen) in Hsub as (rel & -> & Hrel & Hne & Hb).
        exists (name :: rel). cbn [os_path_join below]. rewrite <- app_assoc.
        split; [reflexivity|]. split; [|split; [congruence|]].
        -- apply in_files_in_dir. now exists name, child, rel.
        -- now rewrite last_cons_nonempty.
    + intros (rel & -> & Hrel & Hne & Hb).
      apply in_files_in_dir in Hrel as (name & child & rest & Hen & -> & Hrest).
      destruct rest as [|r rest].
      * destruct child as [|es].
        -- exists (root, dir_names entries, file_names entries). split.
           ++ apply in_walk_dir. now left.
           ++ cbn [select_bundles]. apply in_map_iff. exists name.
              split; [reflexivity|]. apply filter_In. split; [|exact Hb].
              now apply in_file_names.
        -- apply in_files_in_dir in Hrest as (? & ? & ? & _ & Habs & _).
           discriminate Habs.
      * assert (In (below (os_path_join root name) ++ r :: rest)
                  (flat_map select_bundles (walk_node (os_path_join root name) child)))
          as Hsub.
        { apply (IH (name, child) Hen). exists (r :: rest). split; [reflexivity|].
          split; [exact Hrest|]. split; [congruence|].
          rewrite last_cons_nonempty in Hb by congruence. exact Hb. }
        apply in_flat_map in Hsub as (triple & Hin & Hsel).
        exists triple. split.
        -- apply in_walk_dir. right. now exists name, child.
        -- cbn [os_path_join below] in Hsel. now rewrite <- app_assoc in Hsel.
Qed.

Lemma files_under_nonempty (entries : list (string * node)) (rel : list string) :
  In rel (files_under entries) -> rel <> [].
Proof.
  intros Hin. apply in_files_in_dir in Hin as (? & ? & ? & _ & -> & _). congruence.
Qed.

Lemma bundle_files_iff (synthea_fhir_bundles : string)
    (entries : list (string * node)) (names : list string) :
  In names (bundle_files synthea_fhir_bundles entries) <->
  In names (files_under entries) /\ Py.endswith (List.last names "") ".json" = true.
Proof.
  unfold bundle_files, os_walk. rewrite selected_iff. cbn [below app]. split.
  - intros (rel & -> & Hrel & _ & Hb). now split.
  - intros [Hrel Hb]. exists names. split; [reflexivity|]. split; [exact Hrel|].
    split; [|exact Hb]. now apply files_under_nonempty in Hrel.
Qed.

(** ** [store_s3] as one loop over the bundle files *)

Lemma join_cons (sep : string) (x y : string) (l : list string) :
  Py.join sep (x :: y :: l) = x +:+ sep +:+ Py.join sep (y :: l).
Proof. reflexivity. Qed.

Lemma object_name_slashes (sep : ascii) (names : list string) :
  sep = slash \/ sep = backslash ->
  List.Forall (fun name => Py.contains name backslash = false) names ->
  object_name_of sep names = Py.join "/" names.
Proof.
  intros Hsep Hnames. unfold object_name_of.
  induction Hnames as [|x l Hx Hl IH]; [reflexivity|].
  destruct l as [|y l].
  - cbn [Py.join String.concat]. now apply replace_absent.
  - rewrite !join_cons, !replace_append, IH, (replace_absent x) by exact Hx.
    now destruct Hsep as [-> | ->].
Qed.

Section StoreFacts.
Context {σ : Type} `{S3 : S3Client σ}.

Lemma store_bundles_for_each (pjoin : string -> string -> string) (sep : ascii)
    (bucket_name synthea_fhir_bundles : string)
    (entries : list (string * node)) (s : σ) :
  store_bundles pjoin sep bucket_name synthea_fhir_bundles entries s
  = for_each (bundle_files synthea_fhir_bundles entries)
      (upload_bundle pjoin sep bucket_name synthea_fhir_bundles) s.
Proof.
  unfold store_bundles, bundle_files. rewrite for_each_flat_map.
  apply for_each_ext. intros [[root dirs] files] s1 Hin.
  apply walk_node_top in Hin. cbn [fst top] in Hin.
  cbn [select_bundles]. rewrite for_each_map, for_each_filter.
  apply for_each_ext. intros filename s2 _.
  unfold store_file, is_bundle. destruct (Py.endswith filename ".json"); [|reflexivity].
  unfold upload_bundle, file_path_of, object_name_of, os_path_relpath, os_path_join.
  cbn [below]. now rewrite Hin.
Qed.

(** The trace of one step: the existence check first, then at most the put
    of the same file. *)
Lemma upload_to_s3_trace_shape (file_path bucket key : string) (s : σ) :
  exists rest,
    trace (upload_to_s3 file_path bucket key) s = HeadObject bucket key :: rest
    /\ head_object_keys rest = []
    /\ (forall ev, In ev (remote_calls rest) ->
        ev = UploadFile file_path bucket key "application/json").
Proof.
  unfold trace.
  destruct (head_object bucket key s) as [[[]|e] s1] eqn:H.
  - rewrite (upload_to_s3_found file_path _ _ _ _ H). eexists.
    split; [reflexivity|]. split; [reflexivity|]. intros ev [].
  - destruct (is_client_error e) eqn:He.
    + destruct e as [code msg| | | |]; try discriminate He.
      destruct (String.eqb code "404") eqn:Hc.
      * apply String.eqb_eq in Hc. subst code.
        destruct (upload_to_s3_absent file_path _ _ _ _ _ H) as (line & -> & _).
        eexists. split; [reflexivity|]. split; [reflexivity|].
        intros ev [<-|[]]. reflexivity.
      * rewrite (upload_to_s3_rejected file_path _ _ _ _ _ _ H Hc). eexists.
        split; [reflexivity|]. split; [reflexivity|]. intros ev [].
    + rewrite (upload_to_s3_escapes file_path _ _ _ _ _ H He). eexists.
      split; [reflexivity|]. split; [reflexivity|]. intros ev [].
Qed.

Lemma head_object_keys_app (t1 t2 : list event) :
  head_object_keys (t1 ++ t2) = head_object_keys t1 ++ head_object_keys t2.
Proof.
  induction t1 as [|[] t1 IH]; simpl; try rewrite IH; reflexivity.
Qed.

Lemma bind_run {A B} (m : prog σ A) (k : A -> prog σ B) (s : σ) :
  (exists a, outcome m s = Ret a
     /\ outcome (bind m k) s = outcome (k a) (final m s)
     /\ final (bind m k) s = final (k a) (final m s)
     /\ trace (bind m k) s = trace m s ++ trace (k a) (final m s))
  \/ ((forall a, outcome m s <> Ret a)
      /\ exit_code (outcome (bind m k) s) = exit_code (outcome m s)
      /\ (forall b, outcome (bind m k) s <> Ret b)
      /\ final (bind m k) s = final m s
      /\ trace (bind m k) s = trace m s).
Proof.
  unfold outcome, final, trace, bind.
  destruct (m s) as [[[a|e|c] s1] t1]; cbn [fst snd].
  - left. exists a. destruct (k a s1) as [[r s2] t2]. cbn. auto.
  - right. repeat split; congruence.
  - right. repeat split; congruence.
Qed.

Lemma bind_outcome {A B} (m : prog σ A) (k : A -> prog σ B) (s : σ) :
  outcome (bind m k) s
  = match outcome m s with
    | Ret a => outcome (k a) (final m s)
    | Raise e => Raise e
    | Exit c => Exit c
    end.
Proof.
  unfold outcome, final, bind. destruct (m s) as [[[a|e|c] s1] t1]; try reflexivity.
  cbn [fst snd]. now destruct (k a s1) as [[r s2] t2].
Qed.

Lemma bind_trace {A B} (m : prog σ A) (k : A -> prog σ B) (s : σ) :
  trace (bind m k) s
  = match outcome m s with
    | Ret a => trace m s ++ trace (k a) (final m s)
    | _ => trace m s
    end.
Proof.
  unfold outcome, final, trace, bind.
  destruct (m s) as [[[a|e|c] s1] t1]; try reflexivity.
  cbn [fst snd]. now destruct (k a s1) as [[r s2] t2].
Qed.

Lemma bind_final {A B} (m : prog σ A) (k : A -> prog σ B) (s : σ) :
  final (bind m k) s
  = match outcome m s with
    | Ret a => final (k a) (final m s)
    | _ => final m s
    end.
Proof.
  unfold outcome, final, bind. destruct (m s) as [[[a|e|c] s1] t1]; try reflexivity.
  cbn [fst snd]. now destruct (k a s1) as [[r s2] t2].
Qed.

(** The existence checks of a loop over bundle files: one per file in
    order when the loop runs to its end, and only for those files. *)
Lemma for_each_upload_keys (pjoin : string -> string -> string) (sep : ascii)
    (bucket_name synthea_fhir_bundles : string)
    (items : list (list string)) :
  forall s,
    let t := trace (for_each items (upload_bundle pjoin sep bucket_name synthea_fhir_bundles)) s in
    (exists done_, head_object_keys t = map (object_name_of sep) done_
                   /\ exists todo, items = done_ ++ todo)
    /\ (outcome (for_each items (upload_bundle pjoin sep bucket_name synthea_fhir_bundles)) s
        = Ret tt -> head_object_keys t = map (object_name_of sep) items)
    /\ (forall ev, In ev (remote_calls t) ->
        exists names, In names items
          /\ (ev = HeadObject bucket_name (object_name_of sep names)
              \/ ev = UploadFile (file_path_of pjoin synthea_fhir_bundles names) bucket_name
                        (object_name_of sep names) "application/json")).
Proof.
  induction items as [|names items IH]; intros s; cbn zeta.
  - cbn. split; [exists []; split; [reflexivity|now exists []]|].
    split; [reflexivity|]. intros ev [].
  - cbn [for_each].
    destruct (upload_to_s3_trace_shape (file_path_of pjoin synthea_fhir_bundles names)
                bucket_name (object_name_of sep names) s) as (rest & Ht & Hk & Hr).
    fold (upload_bundle pjoin sep bucket_name synthea_fhir_bundles names) in Ht.
    destruct (bind_run (upload_bundle pjoin sep bucket_name synthea_fhir_bundles names)
                (fun _ => for_each items (upload_bundle pjoin sep bucket_name synthea_fhir_bundles)) s)
      as [(a & Ho & Hout & _ & Htr)|(Hno & _ & Hnr & _ & Htr)]; rewrite Htr, Ht.
    + destruct (IH (final (upload_bundle pjoin sep bucket_name synthea_fhir_bundles names) s))
        as ((done_ & Hd & todo & Hsplit) & Hall & Hev). cbn zeta in *.
      split; [|split].
      * exists (names :: done_). cbn [app head_object_keys map].
        rewrite head_object_keys_app, Hk, Hd. split; [reflexivity|].
        exists todo. now rewrite Hsplit.
      * rewrite Hout. intros Hret. cbn [app head_object_keys map].
        now rewrite head_object_keys_app, Hk, (Hall Hret).
      * intros ev Hin. cbn [app remote_calls List.filter is_remote] in Hin.
        destruct Hin as [<-|Hin]; [exists names; split; [now left|now left]|].
        fold (remote_calls (rest ++ trace (for_each items
               (upload_bundle pjoin sep bucket_name synthea_fhir_bundles))
               (final (upload_bundle pjoin sep bucket_name synthea_fhir_bundles names) s))) in Hin.
        rewrite remote_calls_app in Hin. apply in_app_or in Hin as [Hin|Hin].
        -- exists names. split; [now left|]. right. now apply Hr.
        -- destruct (Hev ev Hin) as (names' & Hin' & Hcase).
           exists names'. split; [now right|exact Hcase].
    + split; [|split].
      * exists [names]. cbn [head_object_keys map]. rewrite Hk.
        split; [reflexivity|]. now exists items.
      * intros Hret. now destruct (Hnr tt).
      * intros ev Hin. cbn [remote_calls List.filter is_remote] in Hin.
        destruct Hin as [<-|Hin]; [exists names; split; [now left|now left]|].
        exists names. split; [now left|]. right. now apply Hr.
Qed.

End StoreFacts.

(** ** Exceptions that leave [store_s3] *)

Section StoreOutcome.
Context {σ : Type} `{B3 : Boto3 σ} `{S3 : S3Client σ} `{HL : HealthLakeClient σ}.

Lemma for_each_returns {A} (xs : list A) (f : A -> prog σ unit) :
  (forall x s, In x xs -> outcome (f x) s = Ret tt) ->
  forall s, outcome (for_each xs f) s = Ret tt.
Proof.
  induction xs as [|x xs IH]; intros Hf s; [reflexivity|]. cbn [for_each].
  destruct (bind_run (f x) (fun _ => for_each xs f) s)
    as [(a & _ & -> & _)|(Hno & _)].
  - apply IH. intros y s1 Hy. apply Hf. now right.
  - destruct (Hno tt). apply Hf. now left.
Qed.

Lemma store_loop_returns (pjoin : string -> string -> string) (sep : ascii)
    (bucket_name synthea_fhir_bundles : string)
    (items : list (list string)) :
  forall s,
    existence_checks_answered pjoin sep bucket_name synthea_fhir_bundles items s = true ->
    outcome (for_each items (upload_bundle pjoin sep bucket_name synthea_fhir_bundles)) s
    = Ret tt.
Proof.
  induction items as [|names items IH]; intros s Hok; [reflexivity|].
  cbn [existence_checks_answered] in Hok. apply andb_true_iff in Hok as [Hhead Hrest].
  assert (outcome (upload_bundle pjoin sep bucket_name synthea_fhir_bundles names) s = Ret tt)
    as Hstep.
  { unfold upload_bundle. rewrite upload_to_s3_outcome.
    destruct (fst (head_object bucket_name (object_name_of sep names) s));
      [reflexivity|now rewrite Hhead]. }
  cbn [for_each].
  destruct (bind_run (upload_bundle pjoin sep bucket_name synthea_fhir_bundles names)
              (fun _ => for_each items (upload_bundle pjoin sep bucket_name synthea_fhir_bundles)) s)
    as [(a & _ & -> & _)|(Hno & _)].
  - now apply IH.
  - now destruct (Hno tt).
Qed.

End StoreOutcome.

(** ** Running the sync twice *)

Lemma prefix_append (s t : string) : String.prefix s (s +:+ t) = true.
Proof.
  induction s as [|c s IH].
  - change ("" +:+ t) with t. destruct t; reflexivity.
  - change (String c s +:+ t) with (String c (s +:+ t)). cbn [String.prefix].
    destruct (ascii_dec c c) as [_|Hne]; [exact IH|now destruct Hne].
Qed.

Lemma classify_skip_message (bucket key : string) :
  classify (skip_message bucket key) = Skipped.
Proof. unfold classify, skip_message. now rewrite prefix_append. Qed.

Section SecondRun.
Variables (pjoin : string -> string -> string) (sep : ascii)
  (bucket_name synthea_fhir_bundles : string).

Local Abbreviation step :=
  (upload_bundle (σ := service) pjoin sep bucket_name synthea_fhir_bundles).

(** One step on the service model: faults stay as they are, objects are
    only added, and a step that reports no failure leaves the object in
    the bucket with an existence check that answers. *)
Lemma service_step (names : list string) (w : service) :
  head_fault (final (step names) w) = head_fault w
  /\ put_fault (final (step names) w) = put_fault w
  /\ objects w ⊆ objects (final (step names) w)
  /\ (truthful w ->
      outcome (step names) w = Ret tt ->
      no_failure (trace (step names) w) = true ->
      head_fault w bucket_name (object_name_of sep names) = None
      /\ (bucket_name, object_name_of sep names) ∈ objects (final (step names) w)).
Proof.
  unfold upload_bundle, outcome, final, trace.
  set (key := object_name_of sep names).
  set (file_path := file_path_of pjoin synthea_fhir_bundles names).
  assert (forall msg,
    head_object bucket_name key w = (inr (ClientError "404" msg), w) ->
    let r := upload_to_s3 file_path bucket_name key w in
    head_fault (snd (fst r)) = head_fault w
    /\ put_fault (snd (fst r)) = put_fault w
    /\ objects w ⊆ objects (snd (fst r))
    /\ (no_failure (snd r) = true -> (bucket_name, key) ∈ objects (snd (fst r))))
    as Habsent.
  { intros msg H. cbn zeta.
    destruct (upload_to_s3_absent file_path _ _ _ _ _ H) as (line & -> & Hline).
    cbn [fst snd upload_file service_s3] in *. unfold service_upload_file in *.
    destruct (put_fault w file_path bucket_name key) as [e'|];
      cbn [fst snd put_object head_fault put_fault objects] in *.
    - split; [reflexivity|]. split; [reflexivity|]. split; [set_solver|].
      intros Hno. unfold no_failure, upload_outcomes in Hno.
      cbn [printed map forallb] in Hno. rewrite Hline in Hno. discriminate Hno.
    - split; [reflexivity|]. split; [reflexivity|]. split; set_solver. }
  destruct (head_fault w bucket_name key) as [e|] eqn:Hf.
  - assert (head_object bucket_name key w = (inr e, w)) as H.
    { cbn [head_object service_s3]. unfold service_head_object. now rewrite Hf. }
    destruct (is_client_error e) eqn:He.
    + destruct e as [code msg| | | |]; try discriminate He.
      destruct (String.eqb code "404") eqn:Hc.
      * apply String.eqb_eq in Hc. subst code.
        destruct (Habsent msg H) as (H1 & H2 & H3 & _).
        split; [exact H1|]. split; [exact H2|]. split; [exact H3|].
        intros Ht. now destruct (Ht _ _ _ Hf).
      * rewrite (upload_to_s3_rejected file_path _ _ _ _ _ _ H Hc). cbn [fst snd].
        split; [reflexivity|]. split; [reflexivity|]. split; [reflexivity|].
        intros _ _ Hno. discriminate Hno.
    + rewrite (upload_to_s3_escapes file_path _ _ _ _ _ H He). cbn [fst snd].
      split; [reflexivity|]. split; [reflexivity|]. split; [reflexivity|].
      intros _ Hret. discriminate Hret.
  - destruct (bool_decide ((bucket_name, key) ∈ objects w)) eqn:Hin.
    + assert (head_object bucket_name key w = (inl tt, w)) as H.
      { cbn [head_object service_s3]. unfold service_head_object. now rewrite Hf, Hin. }
      rewrite (upload_to_s3_found file_path _ _ _ _ H). cbn [fst snd].
      apply bool_decide_eq_true in Hin.
      split; [reflexivity|]. split; [reflexivity|]. split; [reflexivity|].
      intros _ _ _. split; [reflexivity|exact Hin].
    + assert (head_object bucket_name key w = (inr not_found, w)) as H.
      { cbn [head_object service_s3]. unfold service_head_object. now rewrite Hf, Hin. }
      destruct (Habsent _ H) as (H1 & H2 & H3 & H4).
      split; [exact H1|]. split; [exact H2|]. split; [exact H3|].
      intros _ _ Hno. split; [reflexivity|now apply H4].
Qed.

Lemma truthful_final (names : list string) (w : service) :
  truthful w -> truthful (final (step names) w).
Proof.
  intros Ht bucket key msg. destruct (service_step names w) as (-> & _). apply Ht.
Qed.

(** A first run that reports no failure leaves every bundle file in the
    bucket. *)
Lemma first_run_stores (items : list (list string)) :
  forall w,
    truthful w ->
    outcome (for_each items step) w = Ret tt ->
    no_failure (trace (for_each items step) w) = true ->
    head_fault (final (for_each items step) w) = head_fault w
    /\ objects w ⊆ objects (final (for_each items step) w)
    /\ (forall names, In names items ->
        head_fault w bucket_name (object_name_of sep names) = None
        /\ (bucket_name, object_name_of sep names)
           ∈ objects (final (for_each items step) w)).
Proof.
  induction items as [|names items IH]; intros w Ht Hret Hno.
  - cbn. split; [reflexivity|]. split; [set_solver|]. intros names [].
  - cbn [for_each] in *.
    destruct (bind_run (step names) (fun _ => for_each items step) w)
      as [(a & Ho & Hout & Hfin & Htr)|(_ & _ & Hnr & _)];
      [|now destruct (Hnr tt)].
    rewrite Hout in Hret. rewrite Htr, no_failure_app in Hno.
    apply andb_true_iff in Hno as [Hno1 Hno2]. rewrite Hfin.
    destruct a. destruct (service_step names w) as (Hhf & _ & Hsub & Hstep).
    destruct (Hstep Ht Ho Hno1) as [Hnone Hobj].
    destruct (IH _ (truthful_final names w Ht) Hret Hno2) as (Hhf' & Hsub' & Hall).
    split; [now rewrite Hhf', Hhf|]. split; [now transitivity (objects (final (step names) w))|].
    intros names' [<-|Hin].
    + split; [exact Hnone|exact (elem_of_weaken _ _ _ Hobj Hsub')].
    + destruct (Hall _ Hin) as [Hn Ho']. split; [now rewrite <- Hhf|exact Ho'].
Qed.

(** A run in which every bundle file is in the bucket skips them all and
    leaves the service as it is. *)
Lemma second_run_skips (items : list (list string)) (w : service) :
  (forall names, In names items ->
     head_fault w bucket_name (object_name_of sep names) = None
     /\ (bucket_name, object_name_of sep names) ∈ objects w) ->
  for_each items step w = (Ret tt, w, flat_map (skipped_trace sep bucket_name) items).
Proof.
  induction items as [|names items IH]; intros Hall; [reflexivity|].
  cbn [for_each flat_map]. unfold bind.
  destruct (Hall names (or_introl eq_refl)) as [Hnone Hobj].
  unfold upload_bundle at 1.
  rewrite (upload_to_s3_found _ _ _ w w).
  - rewrite IH; [reflexivity|]. intros names' Hin. apply Hall. now right.
  - cbn [head_object service_s3]. unfold service_head_object. rewrite Hnone.
    now rewrite bool_decide_eq_true_2.
Qed.

End SecondRun.

Lemma skipped_traces_uploads (sep : ascii) (bucket_name : string)
    (items : list (list string)) :
  uploads (flat_map (skipped_trace sep bucket_name) items) = []
  /\ upload_outcomes (flat_map (skipped_trace sep bucket_name) items)
     = map (fun _ => Skipped) items.
Proof.
  induction items as [|names items [IHu IHo]]; [now split|].
  cbn [flat_map map]. unfold upload_outcomes in *.
  rewrite uploads_app, printed_app, map_app, IHu, IHo. cbn.
  now rewrite classify_skip_message.
Qed.

(** On a service whose existence check is truthful, for
    every directory and every bucket state: when the first run of the sync
    ends with no file reported as failed, a second run over the same
    directory, against the bucket the first run left, finds every bundle
    file at its key and skips it; it issues no put and changes nothing. *)
Lemma store_bundles_second_run (pjoin : string -> string -> string) (sep : ascii)
    (bucket_name synthea_fhir_bundles : string)
    (entries : list (string * node)) (w : service) :
  truthful w ->
  outcome (store_bundles pjoin sep bucket_name synthea_fhir_bundles entries) w = Ret tt ->
  no_failure (trace (store_bundles pjoin sep bucket_name synthea_fhir_bundles entries) w) = true ->
  let w1 := final (store_bundles pjoin sep bucket_name synthea_fhir_bundles entries) w in
  let second := store_bundles pjoin sep bucket_name synthea_fhir_bundles entries in
  outcome second w1 = Ret tt
  /\ trace second w1
     = flat_map (skipped_trace sep bucket_name) (bundle_files synthea_fhir_bundles entries)
  /\ uploads (trace second w1) = []
  /\ upload_outcomes (trace second w1)
     = map (fun _ => Skipped) (bundle_files synthea_fhir_bundles entries)
  /\ final second w1 = w1.
Proof.
  intros Ht Hret Hno. cbn zeta. unfold outcome, final, trace in *.
  rewrite store_bundles_for_each in Hret, Hno.
  rewrite (store_bundles_for_each pjoin sep bucket_name synthea_fhir_bundles entries w).
  set (items := bundle_files synthea_fhir_bundles entries) in *.
  destruct (first_run_stores pjoin sep bucket_name synthea_fhir_bundles items w Ht Hret Hno)
    as (Hhf & _ & Hall).
  unfold final in Hhf, Hall.
  set (w1 := snd (fst (for_each items
                         (upload_bundle pjoin sep bucket_name synthea_fhir_bundles) w))) in *.
  rewrite store_bundles_for_each. fold items.
  rewrite (second_run_skips pjoin sep bucket_name synthea_fhir_bundles items w1).
  - cbn [fst snd]. destruct (skipped_traces_uploads sep bucket_name items) as [Hu Ho].
    now rewrite Hu, Ho.
  - intros names Hin. destruct (Hall names Hin) as [Hn Ho].
    split; [now rewrite Hhf|exact Ho].
Qed.

(** ** [ingest_listed] *)

Section IngestFacts.
Context {σ : Type} `{B3 : Boto3 σ} `{S3 : S3Client σ} `{HL : HealthLakeClient σ}.
Variables (bucket_name datastore_id data_access_role_arn : string).

Local Abbreviation request := (import_request bucket_name datastore_id data_access_role_arn).
Local Abbreviation ingest_one :=
  (ingest_object (σ := σ) bucket_name datastore_id data_access_role_arn).

(** One key: the request is submitted once; the step returns unless the
    call raised something else than [ClientError]. *)
Lemma ingest_object_run (object_name : string) (s : σ) :
  exists line rest,
    trace (ingest_one object_name) s
    = Print line :: StartFHIRImportJob (request object_name) :: rest
    /\ import_requests rest = []
    /\ remote_calls rest = []
    /\ final (ingest_one object_name) s
       = snd (start_fhir_import_job (request object_name) s)
    /\ outcome (ingest_one object_name) s
       = match fst (start_fhir_import_job (request object_name) s) with
         | inl _ => Ret tt
         | inr e => if is_client_error e then Ret tt else Raise e
         end.
Proof.
  unfold ingest_object, try_except, bind, call, print, outcome, final, trace.
  destruct (start_fhir_import_job (request object_name) s) as [[job|e] s1];
    [|destruct e]; cbn [fst snd app is_client_error];
    do 2 eexists; (split; [reflexivity|]); repeat split; reflexivity.
Qed.

Lemma ingest_loop (keys : list string) :
  forall s,
    import_requests (trace (for_each keys ingest_one) s)
    = map request
        (submitted_keys bucket_name datastore_id data_access_role_arn keys s)
    /\ (forall c, outcome (for_each keys ingest_one) s <> Exit c)
    /\ (forall ev, In ev (remote_calls (trace (for_each keys ingest_one) s)) ->
        exists key, In key keys /\ ev = StartFHIRImportJob (request key)).
Proof.
  induction keys as [|key keys IH]; intros s.
  - cbn. split; [reflexivity|]. split; [discriminate|]. intros ev [].
  - cbn [for_each submitted_keys]. rewrite bind_trace, bind_outcome.
    destruct (ingest_object_run key s) as (line & rest & Ht & Hreq & Hrem & Hfin & Hout).
    rewrite Hout, Ht, Hfin.
    destruct (IH (snd (start_fhir_import_job (request key) s))) as (IHreq & IHexit & IHrem).
    assert (forall t, import_requests ((Print line :: StartFHIRImportJob (request key) :: rest) ++ t)
                      = request key :: import_requests t) as Hreqs.
    { intros t. cbn [app import_requests]. now rewrite import_requests_app, Hreq. }
    assert (forall t, remote_calls ((Print line :: StartFHIRImportJob (request key) :: rest) ++ t)
                      = StartFHIRImportJob (request key) :: remote_calls t) as Hrems.
    { intros t. rewrite remote_calls_app. cbn [remote_calls List.filter is_remote].
      fold (remote_calls rest). now rewrite Hrem. }
    assert (forall ev t,
      (forall ev', In ev' (remote_calls t) ->
         exists key', In key' keys /\ ev' = StartFHIRImportJob (request key')) ->
      In ev (StartFHIRImportJob (request key) :: remote_calls t) ->
      exists key', In key' (key :: keys) /\ ev = StartFHIRImportJob (request key'))
      as Hevents.
    { intros ev t Ht' [<-|Hin]; [exists key; split; [now left|reflexivity]|].
      destruct (Ht' ev Hin) as (key' & Hin' & ->).
      exists key'. split; [now right|reflexivity]. }
    destruct (start_fhir_import_job (request key) s) as [[job|e] s1]; cbn [fst snd] in *.
    + rewrite Hreqs, Hrems, IHreq. split; [reflexivity|]. split; [exact IHexit|].
      intros ev. now apply Hevents.
    + destruct (is_client_error e).
      * rewrite Hreqs, Hrems, IHreq. split; [reflexivity|]. split; [exact IHexit|].
        intros ev. now apply Hevents.
      * rewrite <- (app_nil_r (Print line :: _)), Hreqs, Hrems.
        split; [reflexivity|]. split; [discriminate|].
        intros ev. apply Hevents. intros ev' [].
Qed.

End IngestFacts.

Section IngestRun.
Context {σ : Type} `{B3 : Boto3 σ} `{S3 : S3Client σ} `{HL : HealthLakeClient σ}.
Variables (bucket_name datastore_id data_access_role_arn : string).

Local Abbreviation request := (import_request bucket_name datastore_id data_access_role_arn).
Local Abbreviation ingest :=
  (ingest_listed (σ := σ) bucket_name datastore_id data_access_role_arn).

Lemma ingest_listing_failed (e : exn) (s s1 : σ) :
  list_objects_v2 bucket_name s = (inr e, s1) ->
  ingest s = (Ret tt, s1, [ListObjectsV2 bucket_name; Print (ingest_error_line e)]).
Proof.
  intros H. unfold ingest_listed, try_except, bind, call, print. rewrite H.
  now destruct e.
Qed.

Lemma ingest_listing_empty (s s1 : σ) :
  list_objects_v2 bucket_name s = (inl None, s1) ->
  ingest s
  = (Ret tt, s1, [ListObjectsV2 bucket_name; Print "No objects found in the S3 bucket."]).
Proof.
  intros H. unfold ingest_listed, try_except, bind, call, print. now rewrite H.
Qed.

Lemma ingest_listing_keys (keys : list string) (s s1 : σ) :
  list_objects_v2 bucket_name s = (inl (Some keys), s1) ->
  outcome ingest s = Ret tt
  /\ import_requests (trace ingest s)
     = map request (submitted_keys bucket_name datastore_id data_access_role_arn keys s1)
  /\ (forall ev, In ev (remote_calls (trace ingest s)) ->
      ev = ListObjectsV2 bucket_name
      \/ exists key, In key keys /\ ev = StartFHIRImportJob (request key)).
Proof.
  intros H.
  destruct (ingest_loop bucket_name datastore_id data_access_role_arn keys s1)
    as (Hreq & Hexit & Hrem).
  unfold outcome, trace in *.
  unfold ingest_listed, try_except, bind, call. rewrite H.
  destruct (for_each keys (ingest_object bucket_name datastore_id data_access_role_arn) s1)
    as [[[[]|e|c] s2] t2]; cbn [fst snd] in *.
  - split; [reflexivity|]. split; [exact Hreq|].
    intros ev [<-|Hin]; [now left|right; now apply Hrem].
  - assert (exists line,
      match e with
      | NoCredentialsError _ => Some (print (σ := σ) "Credentials not available.")
      | PartialCredentialsError _ => Some (print "Incomplete credentials provided.")
      | _ => Some (print ("An error occurred: " +:+ str_exn e))
      end = Some (print line)) as [line ->] by (destruct e; eauto).
    unfold print. cbn [fst snd]. split; [reflexivity|].
    cbn [app import_requests]. rewrite import_requests_app, Hreq. cbn [import_requests].
    split; [now rewrite app_nil_r|].
    intros ev Hin. cbn [remote_calls List.filter is_remote] in Hin.
    fold (remote_calls (t2 ++ [Print line])) in Hin.
    rewrite remote_calls_app in Hin. cbn [remote_calls List.filter is_remote] in Hin.
    rewrite app_nil_r in Hin.
    destruct Hin as [<-|Hin]; [now left|right; now apply Hrem].
  - now destruct (Hexit c).
Qed.

(** [ingest_listed] always returns: it has no [sys.exit], and its last
    handler catches every [Exception]. *)
Lemma ingest_returns (s : σ) : outcome ingest s = Ret tt.
Proof.
  destruct (list_objects_v2 bucket_name s) as [[[keys|]|e] s1] eqn:H.
  - now apply (ingest_listing_keys keys s s1).
  - unfold outcome. now rewrite (ingest_listing_empty s s1 H).
  - unfold outcome. now rewrite (ingest_listing_failed e s s1 H).
Qed.

Lemma submitted_keys_prefix (keys : list string) :
  forall s, exists rest,
    keys = submitted_keys bucket_name datastore_id data_access_role_arn keys s ++ rest.
Proof.
  induction keys as [|key keys IH]; intros s; [now exists []|].
  cbn [submitted_keys].
  destruct (start_fhir_import_job (request key) s) as [[job|e] s1].
  - destruct (IH s1) as [rest Hrest]. exists rest. cbn [app]. now rewrite <- Hrest.
  - destruct (is_client_error e).
    + destruct (IH s1) as [rest Hrest]. exists rest. cbn [app]. now rewrite <- Hrest.
    + now exists keys.
Qed.

Lemma submitted_keys_all (keys : list string) :
  (forall req s1,
      match fst (start_fhir_import_job req s1) with
      | inl _ => True
      | inr e => is_client_error e = true
      end) ->
  forall s, submitted_keys bucket_name datastore_id data_access_role_arn keys s = keys.
Proof.
  intros Hok. induction keys as [|key keys IH]; intros s; [reflexivity|].
  cbn [submitted_keys]. specialize (Hok (request key) s).
  destruct (start_fhir_import_job (request key) s) as [[job|e] s1]; cbn [fst] in Hok.
  - now rewrite IH.
  - now rewrite Hok, IH.
Qed.

(** For every listing, [ingest_listed] submits one
    import request per listed key, unfiltered and in the order of the
    listing, up to and including the first key whose call raises an
    exception other than [ClientError]; that exception ends the loop.  So
    it submits exactly one request per key as long as every call returns
    or raises [ClientError].  A response without 'Contents' gives no
    request and the line 'No objects found in the S3 bucket.'. *)
Lemma ingest_listed_submits (s : σ) :
  let s1 := snd (list_objects_v2 bucket_name s) in
  (forall keys,
      fst (list_objects_v2 bucket_name s) = inl (Some keys) ->
      import_requests (trace ingest s)
      = map request (submitted_keys bucket_name datastore_id data_access_role_arn keys s1)
      /\ (exists rest,
            keys = submitted_keys bucket_name datastore_id data_access_role_arn keys s1
                   ++ rest)
      /\ ((forall req s2,
              match fst (start_fhir_import_job req s2) with
              | inl _ => True
              | inr e => is_client_error e = true
              end) ->
          import_requests (trace ingest s) = map request keys))
  /\ (fst (list_objects_v2 bucket_name s) = inl None ->
      import_requests (trace ingest s) = []
      /\ printed (trace ingest s) = ["No objects found in the S3 bucket."]
      /\ outcome ingest s = Ret tt).
Proof.
  cbn zeta. destruct (list_objects_v2 bucket_name s) as [r s1] eqn:H. cbn [fst snd].
  split.
  - intros keys ->. destruct (ingest_listing_keys keys s s1 H) as (_ & Hreq & _).
    split; [exact Hreq|]. split; [apply submitted_keys_prefix|].
    intros Hok. now rewrite Hreq, submitted_keys_all.
  - intros ->. unfold trace, outcome. now rewrite (ingest_listing_empty s s1 H).
Qed.

End IngestRun.

(** ** The job name *)

Example job_name_of_long_key :
  job_name "a/very/long/path/with/many/segments/that/goes/on/and/on/file.json"
  = "Ingest-a/very/long/path/with/many/segments/that/goes/on/and/on"
  /\ job_name "a.json" = "Ingest-a.json".
Proof. split; reflexivity. Qed.

(** ** The variables [doctor] requires *)

Lemma missing_env_vars_spec (h : host) (var : string) :
  In var (missing_env_vars h) <-> In var required_env_vars /\ os_getenv h var = None.
Proof.
  unfold missing_env_vars. rewrite filter_In.
  split; intros [Hin Hnone]; (split; [exact Hin|]); now destruct (os_getenv h var).
Qed.


(** * Further properties *)

(** ** The command line *)

Section CommandLine.
Context {σ : Type} `{B3 : Boto3 σ} `{S3 : S3Client σ} `{HL : HealthLakeClient σ}.

Lemma usage_exit (line : string) (s : σ) :
  bind (print line) (fun _ => sys_exit (A := unit) 1) s = (Exit 1, s, [Print line]).
Proof. reflexivity. Qed.

Ltac split_eqb :=
  match goal with
  | |- context [String.eqb ?a ?b] =>
      is_var a;
      let E := fresh "E" in
      destruct (String.eqb a b) eqn:E;
      [apply String.eqb_eq in E; subst a; cbn [String.eqb Ascii.eqb Bool.eqb negb orb]
      |cbn [negb orb]]
  end.

(** Either the command line has one of the three accepted shapes, or
    [main] prints and leaves with [sys.exit(1)] before any client call. *)
Lemma main_shape (h : host) (argv : list string) (s : σ) :
  (exists t, main h argv s = (Exit 1, s, t) /\ remote_calls t = [] /\ printed t <> [])
  \/ (exists script b p, argv = [script; "store-s3"; "--bucket-name"; b; "--path"; p])
  \/ (exists script b d r,
        argv = [script; "ingest-healthlake"; "--bucket-name"; b;
                "--datastore-id"; d; "--darole-arn"; r])
  \/ (exists script b d,
        argv = [script; "doctor"; "--bucket-name"; b; "--datastore-id"; d]).
Proof.
  destruct argv as [|a0 [|a1 [|a2 [|a3 [|a4 [|a5 [|a6 [|a7 [|a8 rest]]]]]]]]];
    unfold main; cbn [length Nat.ltb Nat.leb argv_at nth Nat.eqb negb orb];
    repeat split_eqb;
    first
      [ left; eexists; split; [reflexivity|]; split; [reflexivity|discriminate]
      | right; left; do 3 eexists; reflexivity
      | right; right; left; do 4 eexists; reflexivity
      | right; right; right; do 3 eexists; reflexivity ].
Qed.

Lemma for_each_never_exits {A} (xs : list A) (f : A -> prog σ unit) :
  (forall x s c, outcome (f x) s <> Exit c) ->
  forall s c, outcome (for_each xs f) s <> Exit c.
Proof.
  intros Hf. induction xs as [|x xs IH]; intros s c; [discriminate|].
  cbn [for_each]. rewrite bind_outcome.
  destruct (outcome (f x) s) as [[]|e|c'] eqn:Hx; [apply IH|discriminate|].
  now destruct (Hf x s c').
Qed.

Lemma store_bundles_never_exits (pjoin : string -> string -> string) (sep : ascii)
    (bucket_name dir : string)
    (entries : list (string * node)) (s : σ) (c : Z) :
  outcome (store_bundles pjoin sep bucket_name dir entries) s <> Exit c.
Proof.
  unfold outcome. rewrite store_bundles_for_each.
  apply for_each_never_exits. intros names s1 c1. unfold upload_bundle.
  rewrite upload_to_s3_outcome.
  destruct (fst (head_object bucket_name (object_name_of sep names) s1)) as [u|e];
    [discriminate|]. destruct (is_client_error e); discriminate.
Qed.

(** X1.  A command line that has none of the three accepted shapes (too
    few arguments, an unknown command, a flag missing, misspelt or out of
    place) ends the process with status 1 after printing a usage or error
    text; no client call is made and the services are left as they are. *)
Theorem main_rejects_bad_command_line (h : host) (argv : list string) (s : σ) :
  (forall script b p,
      argv <> [script; "store-s3"; "--bucket-name"; b; "--path"; p]) ->
  (forall script b d r,
      argv <> [script; "ingest-healthlake"; "--bucket-name"; b;
               "--datastore-id"; d; "--darole-arn"; r]) ->
  (forall script b d,
      argv <> [script; "doctor"; "--bucket-name"; b; "--datastore-id"; d]) ->
  process_exit_code h argv s = 1%Z
  /\ remote_calls (trace (main h argv) s) = []
  /\ printed (trace (main h argv) s) <> []
  /\ final (main h argv) s = s.
Proof.
  intros Hstore Hingest Hdoctor.
  destruct (main_shape h argv s)
    as [(t & Hrun & Hrem & Hpr)|[(a & b & p & ->)|[(a & b & d & r & ->)|(a & b & d & ->)]]].
  - unfold process_exit_code, outcome, trace, final. rewrite Hrun. cbn. auto.
  - now destruct (Hstore a b p).
  - now destruct (Hingest a b d r).
  - now destruct (Hdoctor a b d).
Qed.

(** X2.  [store-s3] with a path that is not a directory prints that the
    path is not a directory and ends with status 1; the bucket is not
    contacted. *)
Theorem main_rejects_non_directory (h : host) (script bucket_name dir : string)
    (s : σ) :
  directory_at h dir = None ->
  let argv := [script; "store-s3"; "--bucket-name"; bucket_name; "--path"; dir] in
  process_exit_code h argv s = 1%Z
  /\ trace (main h argv) s
     = [Print ("The specified path " +:+ dir +:+ " is not a directory.")]
  /\ final (main h argv) s = s.
Proof.
  intros Hdir. cbn zeta. unfold process_exit_code, outcome, trace, final, main.
  cbn [length Nat.ltb Nat.leb argv_at nth Nat.eqb negb orb].
  rewrite !String.eqb_refl. cbn [negb orb]. now rewrite Hdir.
Qed.

End CommandLine.

(** No command at all. *)
Lemma main_rejects_bad_command_line_witness :
  process_exit_code (posix_host all_set) ["./hiosctl.py"] (healthy ∅ None) = 1%Z
  /\ remote_calls (trace (main (posix_host all_set) ["./hiosctl.py"]) (healthy ∅ None))
     = [].
Proof.
  destruct (main_rejects_bad_command_line (posix_host all_set) ["./hiosctl.py"]
              (healthy ∅ None)) as (Hcode & Hrem & _);
    [discriminate|discriminate|discriminate|].
  split; [exact Hcode|exact Hrem].
Defined.

(** The path and bucket flags given in the other order. *)
Example flags_are_positional :
  trace (main (posix_host all_set)
           ["./hiosctl.py"; "store-s3"; "--path"; "/data"; "--bucket-name"; "bkt"])
    (healthy ∅ None)
  = [Print "Usage: ./hiosctl.py store-s3 --bucket-name your-bucket-name --path /path/to/synthea_fhir_bundles"].
Proof. reflexivity. Qed.

(** '/tmp' is not a directory of the host. *)
Lemma main_rejects_non_directory_witness :
  process_exit_code (posix_host all_set)
    ["./hiosctl.py"; "store-s3"; "--bucket-name"; "bkt"; "--path"; "/tmp"]
    (healthy ∅ None) = 1%Z.
Proof.
  destruct (main_rejects_non_directory (posix_host all_set) "./hiosctl.py" "bkt" "/tmp"
              (healthy ∅ None)) as (Hcode & _); [reflexivity|exact Hcode].
Defined.


(** ** The sync, further *)

Section SyncFurther.
Context {σ : Type} `{S3 : S3Client σ}.

(** X7.  When the existence check answers 404, whatever [upload_file]
    does stays inside the step: [upload_to_s3] returns, after the one put
    and one printed line, which tells a success, a vanished local file,
    missing or partial credentials, or any other error with its text. *)
Theorem upload_failure_is_contained (file_path bucket key msg : string) (s : σ) :
  fst (head_object bucket key s) = inr (ClientError "404" msg) ->
  let s1 := snd (head_object bucket key s) in
  let answer := upload_file file_path bucket key "application/json" s1 in
  outcome (upload_to_s3 file_path bucket key) s = Ret tt
  /\ trace (upload_to_s3 file_path bucket key) s
     = [HeadObject bucket key;
        UploadFile file_path bucket key "application/json";
        Print (upload_report file_path bucket key (fst answer))]
  /\ final (upload_to_s3 file_path bucket key) s = snd answer.
Proof.
  intros H. cbn zeta. destruct (head_object bucket key s) as [r s1] eqn:Hhead.
  cbn [fst snd] in *. subst r.
  unfold outcome, trace, final, upload_to_s3, try_except, bind, call, print.
  rewrite Hhead. cbn [String.eqb Ascii.eqb Bool.eqb].
  destruct (upload_file file_path bucket key "application/json" s1) as [[u|e] s2];
    [|destruct e]; cbn; auto.
Qed.

Lemma upload_to_s3_lines (file_path bucket key : string) (s : σ) :
  match outcome (upload_to_s3 file_path bucket key) s with
  | Ret _ => length (printed (trace (upload_to_s3 file_path bucket key) s)) = 1%nat
  | _ => printed (trace (upload_to_s3 file_path bucket key) s) = []
  end.
Proof.
  unfold outcome, trace.
  destruct (head_object bucket key s) as [[[]|e] s1] eqn:H.
  - now rewrite (upload_to_s3_found file_path _ _ _ _ H).
  - destruct (is_client_error e) eqn:He.
    + destruct e as [code msg| | | |]; try discriminate He.
      destruct (String.eqb code "404") eqn:Hc.
      * apply String.eqb_eq in Hc. subst code.
        destruct (upload_to_s3_absent file_path _ _ _ _ _ H) as (line & -> & _).
        reflexivity.
      * now rewrite (upload_to_s3_rejected file_path _ _ _ _ _ _ H Hc).
    + now rewrite (upload_to_s3_escapes file_path _ _ _ _ _ H He).
Qed.

Lemma store_loop_lines (pjoin : string -> string -> string) (sep : ascii) (bucket_name dir : string)
    (items : list (list string)) :
  forall s,
    match outcome (for_each items (upload_bundle pjoin sep bucket_name dir)) s with
    | Ret _ =>
        length (printed (trace (for_each items (upload_bundle pjoin sep bucket_name dir)) s))
        = length items
    | _ =>
        (length (printed (trace (for_each items (upload_bundle pjoin sep bucket_name dir)) s))
         < length items)%nat
    end.
Proof.
  induction items as [|names items IH]; intros s; [reflexivity|].
  cbn [for_each]. rewrite bind_outcome, bind_trace.
  pose proof (upload_to_s3_lines (file_path_of pjoin dir names) bucket_name
                (object_name_of sep names) s) as Hstep.
  fold (upload_bundle pjoin sep bucket_name dir names) in Hstep.
  destruct (outcome (upload_bundle pjoin sep bucket_name dir names) s) as [[]|e|c].
  - specialize (IH (final (upload_bundle pjoin sep bucket_name dir names) s)).
    rewrite printed_app, length_app, Hstep. cbn [length].
    destruct (outcome (for_each items (upload_bundle pjoin sep bucket_name dir))
                (final (upload_bundle pjoin sep bucket_name dir names) s)); lia.
  - rewrite Hstep. cbn [length]. lia.
  - rewrite Hstep. cbn [length]. lia.
Qed.

(** A sync that runs to its end has printed exactly one line per
    bundle file; a sync ended by an exception has printed fewer lines than
    there are bundle files. *)
Lemma store_bundles_lines (pjoin : string -> string -> string) (sep : ascii)
    (bucket_name dir : string)
    (entries : list (string * node)) (s : σ) :
  (outcome (store_bundles pjoin sep bucket_name dir entries) s = Ret tt ->
   length (printed (trace (store_bundles pjoin sep bucket_name dir entries) s))
   = length (bundle_files dir entries))
  /\ (forall e,
        outcome (store_bundles pjoin sep bucket_name dir entries) s = Raise e ->
        (length (printed (trace (store_bundles pjoin sep bucket_name dir entries) s))
         < length (bundle_files dir entries))%nat).
Proof.
  pose proof (store_loop_lines pjoin sep bucket_name dir (bundle_files dir entries) s) as H.
  unfold outcome, trace in *. rewrite store_bundles_for_each.
  split; [intros Hret|intros e Hraise]; now rewrite ?Hret, ?Hraise in H.
Qed.


End SyncFurther.

(** The local file is gone when it is read: the step reports it and
    returns. *)
Lemma upload_failure_is_contained_witness :
  trace (upload_to_s3 "/data/a.json" "bkt" "a.json") file_vanished
  = [HeadObject "bkt" "a.json";
     UploadFile "/data/a.json" "bkt" "a.json" "application/json";
     Print "The file /data/a.json was not found."].
Proof.
  destruct (upload_failure_is_contained "/data/a.json" "bkt" "a.json"
              (str_exn not_found) file_vanished) as (_ & Htrace & _).
  - reflexivity.
  - exact Htrace.
Defined.

(** ** The sync against the bucket model *)

Lemma classify_uploaded_message (bucket key : string) :
  classify (uploaded_message bucket key) = Uploaded.
Proof.
  unfold classify, uploaded_message.
  replace (String.prefix "File already exists in s3://"
             ("File uploaded successfully to s3://" +:+ bucket +:+ "/" +:+ key))
    with false by reflexivity.
  now rewrite prefix_append.
Qed.

Set Warnings "-clear-no-such-hyp".

Section BucketModel.
Variables (pjoin : string -> string -> string) (sep : ascii) (bucket_name dir : string).

Local Abbreviation step := (upload_bundle (σ := service) pjoin sep bucket_name dir).
Local Abbreviation key_of := (fun names => (bucket_name, object_name_of sep names)).

(** A put is only made for a key the bucket does not hold. *)
Lemma service_step_put (names : list string) (w : service) :
  truthful w ->
  forall ev, In ev (uploads (trace (step names) w)) ->
    ev = UploadFile (file_path_of pjoin dir names) bucket_name
           (object_name_of sep names) "application/json"
    /\ key_of names ∉ objects w.
Proof.
  intros Ht ev. unfold upload_bundle, trace.
  set (key := object_name_of sep names). set (file_path := file_path_of pjoin dir names).
  destruct (head_fault w bucket_name key) as [e|] eqn:Hf.
  - assert (head_object bucket_name key w = (inr e, w)) as H.
    { cbn [head_object service_s3]. unfold service_head_object. now rewrite Hf. }
    destruct (is_client_error e) eqn:He.
    + destruct e as [code msg| | | |]; try discriminate He.
      destruct (String.eqb code "404") eqn:Hc.
      * apply String.eqb_eq in Hc. subst code. now destruct (Ht _ _ _ Hf).
      * rewrite (upload_to_s3_rejected file_path _ _ _ _ _ _ H Hc). intros [].
    + rewrite (upload_to_s3_escapes file_path _ _ _ _ _ H He). intros [].
  - destruct (bool_decide ((bucket_name, key) ∈ objects w)) eqn:Hin.
    + assert (head_object bucket_name key w = (inl tt, w)) as H.
      { cbn [head_object service_s3]. unfold service_head_object. now rewrite Hf, Hin. }
      rewrite (upload_to_s3_found file_path _ _ _ _ H). intros [].
    + assert (head_object bucket_name key w = (inr not_found, w)) as H.
      { cbn [head_object service_s3]. unfold service_head_object. now rewrite Hf, Hin. }
      destruct (upload_to_s3_absent file_path _ _ _ _ _ H) as (line & -> & _).
      apply bool_decide_eq_false in Hin. intros [<-|[]]. now split.
Qed.

Lemma service_loop_puts (items : list (list string)) :
  forall w,
    truthful w ->
    forall ev, In ev (uploads (trace (for_each items step) w)) ->
      exists names,
        In names items
        /\ ev = UploadFile (file_path_of pjoin dir names) bucket_name
                  (object_name_of sep names) "application/json"
        /\ key_of names ∉ objects w.
Proof.
  induction items as [|names items IH]; intros w Ht ev Hin; [destruct Hin|].
  cbn [for_each] in Hin. rewrite bind_trace in Hin.
  assert (In ev (uploads (trace (step names) w))
          \/ In ev (uploads (trace (for_each items step) (final (step names) w))))
    as [Hev|Hev].
  { destruct (outcome (step names) w); [|now left|now left].
    rewrite uploads_app in Hin. now apply in_app_or in Hin. }
  - destruct (service_step_put names w Ht ev Hev) as [-> Hnew].
    exists names. split; [now left|now split].
  - destruct (IH _ (truthful_final pjoin sep bucket_name dir names w Ht) ev Hev)
      as (names' & Hin' & -> & Hnew).
    exists names'. split; [now right|]. split; [reflexivity|].
    destruct (service_step pjoin sep bucket_name dir names w) as (_ & _ & Hsub & _).
    intros Hold. apply Hnew. exact (elem_of_weaken _ _ _ Hold Hsub).
Qed.

(** On a bucket whose existence check is truthful, the sync never
    overwrites: every put it issues is for a key that the bucket did not
    hold when the sync began. *)
Lemma store_bundles_never_overwrites (entries : list (string * node)) (w : service)
    (file_path key content_type : string) :
  truthful w ->
  In (UploadFile file_path bucket_name key content_type)
     (trace (store_bundles pjoin sep bucket_name dir entries) w) ->
  (bucket_name, key) ∉ objects w.
Proof.
  intros Ht Hin. unfold trace in Hin. rewrite store_bundles_for_each in Hin.
  assert (In (UploadFile file_path bucket_name key content_type)
             (uploads (for_each (bundle_files dir entries) step w).2)) as Hup
    by (apply filter_In; now split).
  destruct (service_loop_puts _ w Ht _ Hup) as (names & _ & Heq & Hnew).
  injection Heq as -> -> ->. exact Hnew.
Qed.

(** One step on a service without faults. *)
Lemma faultless_step (names : list string) (w : service) :
  (forall b k, head_fault w b k = None) ->
  (forall p b k, put_fault w p b k = None) ->
  outcome (step names) w = Ret tt
  /\ no_failure (trace (step names) w) = true
  /\ objects (final (step names) w) = {[ key_of names ]} ∪ objects w
  /\ head_fault (final (step names) w) = head_fault w
  /\ put_fault (final (step names) w) = put_fault w.
Proof.
  intros Hhead Hput. unfold upload_bundle, outcome, trace, final.
  set (key := object_name_of sep names). set (file_path := file_path_of pjoin dir names).
  destruct (bool_decide ((bucket_name, key) ∈ objects w)) eqn:Hin.
  - assert (head_object bucket_name key w = (inl tt, w)) as H.
    { cbn [head_object service_s3]. unfold service_head_object.
      now rewrite Hhead, Hin. }
    rewrite (upload_to_s3_found file_path _ _ _ _ H). cbn [fst snd].
    apply bool_decide_eq_true in Hin. split; [reflexivity|]. split.
    + unfold no_failure, upload_outcomes. cbn [printed map forallb].
      now rewrite classify_skip_message.
    + split; [set_solver|now split].
  - assert (head_object bucket_name key w = (inr not_found, w)) as H.
    { cbn [head_object service_s3]. unfold service_head_object.
      now rewrite Hhead, Hin. }
    destruct (upload_to_s3_absent file_path _ _ _ _ _ H) as (line & -> & Hline).
    cbn [fst snd upload_file service_s3] in *. unfold service_upload_file in *.
    rewrite Hput in *. cbn [fst snd] in *. subst line.
    split; [reflexivity|]. split.
    + unfold no_failure, upload_outcomes. cbn [printed map forallb].
      now rewrite classify_uploaded_message.
    + now split.
Qed.

Lemma faultless_loop (items : list (list string)) :
  forall w,
    (forall b k, head_fault w b k = None) ->
    (forall p b k, put_fault w p b k = None) ->
    outcome (for_each items step) w = Ret tt
    /\ no_failure (trace (for_each items step) w) = true
    /\ objects (final (for_each items step) w)
       = list_to_set (map key_of items) ∪ objects w.
Proof.
  induction items as [|names items IH]; intros w Hhead Hput.
  - cbn. split; [reflexivity|]. split; [reflexivity|set_solver].
  - cbn [for_each]. rewrite bind_outcome, bind_trace, bind_final.
    destruct (faultless_step names w Hhead Hput) as (Ho & Hno & Hobj & Hh & Hp).
    rewrite Ho.
    destruct (IH (final (step names) w)) as (Ho' & Hno' & Hobj').
    { intros b k. now rewrite Hh. }
    { intros p b k. now rewrite Hp. }
    split; [exact Ho'|]. split; [now rewrite no_failure_app, Hno, Hno'|].
    rewrite Hobj', Hobj. cbn [map list_to_set]. set_solver.
Qed.

(** On a service without faults the sync runs to its end with no
    file reported as failed, and the bucket then holds what it held before
    together with the key of every bundle file. *)
Lemma store_bundles_stores_every_bundle (entries : list (string * node)) (w : service) :
  (forall b k, head_fault w b k = None) ->
  (forall p b k, put_fault w p b k = None) ->
  outcome (store_bundles pjoin sep bucket_name dir entries) w = Ret tt
  /\ no_failure (trace (store_bundles pjoin sep bucket_name dir entries) w) = true
  /\ objects (final (store_bundles pjoin sep bucket_name dir entries) w)
     = list_to_set (map key_of (bundle_files dir entries)) ∪ objects w.
Proof.
  intros Hhead Hput.
  destruct (faultless_loop (bundle_files dir entries) w Hhead Hput) as (Ho & Hno & Hobj).
  unfold outcome, trace, final in *. now rewrite store_bundles_for_each.
Qed.

End BucketModel.

(** ** Job names and object keys *)

Lemma slice_to_append (n : nat) (s t : string) :
  (n <= String.length s)%nat -> Py.slice_to n (s +:+ t) = Py.slice_to n s.
Proof.
  revert s. induction n as [|n IH]; intros [|c s] Hn;
    try reflexivity; cbn [String.length] in Hn; try lia.
  change (String c (Py.slice_to n (s +:+ t)) = String c (Py.slice_to n s)).
  rewrite IH; [reflexivity|lia].
Qed.

Lemma append_inj_l (p s t : string) : p +:+ s = p +:+ t -> s = t.
Proof.
  induction p as [|c p IH]; intros H; [exact H|].
  change (String c (p +:+ s) = String c (p +:+ t)) in H.
  injection H as H. now apply IH.
Qed.

(** X12.  A key of at most 55 characters is not truncated: its job name
    is 'Ingest-' followed by the key, so two such keys with the same job
    name are the same key. *)
Theorem job_name_of_short_key (key1 key2 : string) :
  (String.length key1 <= 55)%nat ->
  (String.length key2 <= 55)%nat ->
  job_name key1 = "Ingest-" +:+ key1
  /\ (job_name key1 = job_name key2 -> key1 = key2).
Proof.
  intros H1 H2. unfold job_name. rewrite !slice_to_all by assumption.
  split; [reflexivity|]. apply append_inj_l.
Qed.

(** X13.  Keys that agree on their first 55 characters get the same job
    name, whatever follows: the import requests of two such objects carry
    equal names. *)
Theorem job_name_of_long_keys (front tail1 tail2 bucket_name datastore_id
                               data_access_role_arn : string) :
  (55 <= String.length front)%nat ->
  job_name (front +:+ tail1) = job_name (front +:+ tail2)
  /\ JobName (import_request bucket_name datastore_id data_access_role_arn
                (front +:+ tail1))
     = JobName (import_request bucket_name datastore_id data_access_role_arn
                  (front +:+ tail2)).
Proof.
  intros H. cbn [JobName import_request]. unfold job_name.
  rewrite !slice_to_append by exact H. now split.
Qed.

Lemma job_name_of_short_key_witness :
  job_name "a.json" = "Ingest-a.json"
  /\ (job_name "a.json" = job_name "b.json" -> "a.json" = "b.json").
Proof. apply job_name_of_short_key; cbn; lia. Defined.

(** Two exports of one patient, told apart only after the 55th character. *)
Lemma job_name_of_long_keys_witness :
  job_name ("fhir/2024/patients/Abbott_Aaron_0123456789abcdef0123456" +:+ "7-part1.json")
  = job_name ("fhir/2024/patients/Abbott_Aaron_0123456789abcdef0123456" +:+ "7-part2.json").
Proof.
  apply (job_name_of_long_keys _ _ _ "bkt" "ds1" "arn"). cbn. lia.
Defined.

Lemma string_append_assoc (a b c : string) : (a +:+ b) +:+ c = a +:+ (b +:+ c).
Proof.
  induction a as [|x a IH]; [reflexivity|].
  change (String x ((a +:+ b) +:+ c) = String x (a +:+ (b +:+ c))). now rewrite IH.
Qed.

Lemma join_ends_with_last (sep : string) (names : list string) :
  names <> [] -> exists front, Py.join sep names = front +:+ List.last names "".
Proof.
  induction names as [|x names IH]; [congruence|]. intros _.
  destruct names as [|y names]; [now exists ""|].
  destruct IH as [front Hfront]; [congruence|].
  exists (x +:+ sep +:+ front). rewrite join_cons, Hfront.
  change (List.last (x :: y :: names) "") with (List.last (y :: names) "").
  now rewrite !string_append_assoc.
Qed.

Lemma replace_removes (s : string) (old new : ascii) :
  old <> new -> Py.contains (Py.replace s old new) old = false.
Proof.
  intros Hne. induction s as [|c s IH]; [reflexivity|]. cbn [Py.replace Py.contains].
  rewrite IH, orb_false_r. destruct (Ascii.eqb c old) eqn:Hc; [|exact Hc].
  apply Ascii.eqb_neq. congruence.
Qed.

Lemma object_name_is_json_key (sep : ascii) (names : list string) :
  names <> [] ->
  Py.endswith (List.last names "") ".json" = true ->
  Py.contains (object_name_of sep names) backslash = false
  /\ Py.endswith (object_name_of sep names) ".json" = true.
Proof.
  intros Hne Hjson. unfold object_name_of. split.
  - apply replace_removes. discriminate.
  - destruct (join_ends_with_last (sep_str sep) names Hne) as [front ->].
    apply endswith_spec in Hjson as [stem ->].
    rewrite <- string_append_assoc, replace_append.
    change (Py.replace ".json" backslash slash) with ".json".
    apply endswith_append.
Qed.

(** Every object the sync checks or puts lies in the bucket given on
    the command line, under a key that ends in '.json' and holds no
    backslash; a put always declares the content type application/json. *)
Lemma store_bundles_touches_json_keys {σ : Type} `{S3 : S3Client σ} (pjoin : string -> string -> string) (sep : ascii)
    (bucket_name dir : string) (entries : list (string * node)) (s : σ)
    (ev : event) :
  In ev (remote_calls (trace (store_bundles pjoin sep bucket_name dir entries) s)) ->
  exists key,
    (ev = HeadObject bucket_name key
     \/ exists file_path, ev = UploadFile file_path bucket_name key "application/json")
    /\ Py.endswith key ".json" = true
    /\ Py.contains key backslash = false.
Proof.
  intros Hin. unfold trace in Hin. rewrite store_bundles_for_each in Hin.
  apply (for_each_upload_keys pjoin sep bucket_name dir) in Hin
    as (names & Hnames & Hev).
  apply bundle_files_iff in Hnames as [Hunder Hjson].
  apply files_under_nonempty in Hunder.
  destruct (object_name_is_json_key sep names Hunder Hjson) as [Hno Hends].
  exists (object_name_of sep names). split; [|now split].
  destruct Hev as [->| ->]; [now left|right; eauto].
Qed.

(** ** Every bundle file once *)

Lemma walk_dir_tail (root : path) (name : string) (child : node)
    (es : list (string * node)) :
  tl (walk_node root (Dir ((name, child) :: es)))
  = walk_node (os_path_join root name) child ++ tl (walk_node root (Dir es)).
Proof. reflexivity. Qed.

Lemma files_in_dir_cons (name : string) (child : node) (es : list (string * node)) :
  files_in (Dir ((name, child) :: es))
  = map (cons name) (files_in child) ++ files_in (Dir es).
Proof. reflexivity. Qed.

Lemma file_names_cons (name : string) (child : node) (es : list (string * node)) :
  file_names ((name, child) :: es)
  = match child with File => [name] | Dir _ => [] end ++ file_names es.
Proof. reflexivity. Qed.

Lemma filter_bundle_cons (name : string) (rels : list (list string)) :
  (forall rel, In rel rels -> rel <> []) ->
  List.filter (fun rel => is_bundle (List.last rel "")) (map (cons name) rels)
  = map (cons name) (List.filter (fun rel => is_bundle (List.last rel "")) rels).
Proof.
  induction rels as [|rel rels IH]; intros Hne; [reflexivity|].
  cbn [map List.filter].
  rewrite (last_cons_nonempty name rel) by (apply Hne; now left).
  rewrite IH by (intros r Hr; apply Hne; now right).
  now destruct (is_bundle (List.last rel "")).
Qed.

Lemma selected_permutation (n : node) :
  forall root,
    Permutation (flat_map select_bundles (walk_node root n))
      (map (app (below root))
         (List.filter (fun rel => is_bundle (List.last rel "")) (files_in n))).
Proof.
  induction n as [|entries IH] using node_nested_ind; intros root.
  - cbn. constructor.
  - change (walk_node root (Dir entries))
      with ((root, dir_names entries, file_names entries)
              :: tl (walk_node root (Dir entries))).
    cbn [flat_map select_bundles].
    induction entries as [|[name child] es IHes]; [cbn; constructor|].
    rewrite walk_dir_tail, files_in_dir_cons, file_names_cons.
    rewrite flat_map_app, !List.filter_app, !map_app.
    pose proof (Forall_inv IH) as IHchild. cbn [snd] in IHchild.
    specialize (IHes (Forall_inv_tail IH)).
    destruct child as [|inner].
    + cbn [walk_node flat_map files_in map app List.filter List.last].
      destruct (is_bundle name); cbn [map app]; [constructor|]; exact IHes.
    + cbn [List.filter map app]. rewrite filter_bundle_cons
        by (intros rel Hrel; now apply files_under_nonempty in Hrel).
      rewrite map_map.
      rewrite (map_ext (fun rel => below root ++ name :: rel)
                 (app (below (os_path_join root name))))
        by (intros rel; cbn [os_path_join below]; now rewrite <- app_assoc).
      etransitivity; [apply Permutation_app_swap_app|].
      apply Permutation_app; [apply IHchild|exact IHes].
Qed.

(** X15.  The sync goes through each bundle file once: the files handed
    to the upload step are, up to their order, the files below the
    directory whose name ends in '.json', each as often as it occurs
    there. *)
Theorem bundle_files_each_once (dir : string) (entries : list (string * node)) :
  Permutation (bundle_files dir entries)
    (List.filter (fun names => Py.endswith (List.last names "") ".json")
       (files_under entries)).
Proof.
  unfold bundle_files, os_walk, files_under.
  etransitivity; [apply selected_permutation|].
  cbn [below app]. now rewrite map_id.
Qed.

Example bundle_files_of_nested_dir :
  bundle_files "/data" nested_dir
  = [["c.json"]; ["p1"; "a.json"]; ["p1"; "deep"; "b.json"]]
  /\ files_under nested_dir
     = [["p1"; "a.json"]; ["p1"; "notes.md"]; ["p1"; "deep"; "b.json"]; ["c.json"]].
Proof. split; reflexivity. Qed.

(** ** The ingest, further *)

Section IngestFurther.
Context {σ : Type} `{B3 : Boto3 σ} `{S3 : S3Client σ} `{HL : HealthLakeClient σ}.
Variables (bucket_name datastore_id data_access_role_arn : string).

Local Abbreviation ingest_one :=
  (ingest_object (σ := σ) bucket_name datastore_id data_access_role_arn).
Local Abbreviation ingest :=
  (ingest_listed (σ := σ) bucket_name datastore_id data_access_role_arn).

Lemma ingest_loop_calls (keys : list string) :
  forall s,
    remote_calls (trace (for_each keys ingest_one) s)
    = map StartFHIRImportJob (import_requests (trace (for_each keys ingest_one) s)).
Proof.
  induction keys as [|key keys IH]; intros s; [reflexivity|].
  cbn [for_each]. rewrite bind_trace.
  destruct (ingest_object_run bucket_name datastore_id data_access_role_arn key s)
    as (line & rest & Ht & Hreq & Hrem & _).
  assert (remote_calls (trace (ingest_one key) s)
          = map StartFHIRImportJob (import_requests (trace (ingest_one key) s)))
    as Hstep.
  { rewrite Ht. cbn [remote_calls List.filter is_remote import_requests map].
    fold (remote_calls rest). now rewrite Hrem, Hreq. }
  destruct (outcome (ingest_one key) s); try exact Hstep.
  now rewrite remote_calls_app, import_requests_app, map_app, Hstep, IH.
Qed.

(** An ingest lists the bucket once, first, and every further
    client call is the import request of an object; it never checks,
    uploads or describes anything. *)
Lemma ingest_listed_calls (s : σ) :
  remote_calls (trace ingest s)
  = ListObjectsV2 bucket_name
      :: map StartFHIRImportJob (import_requests (trace ingest s)).
Proof.
  destruct (list_objects_v2 bucket_name s) as [[[keys|]|e] s1] eqn:H.
  - pose proof (ingest_loop_calls keys s1) as Hloop. unfold trace in *.
    unfold ingest_listed, try_except, bind, call. rewrite H.
    destruct (for_each keys ingest_one s1) as [[[[]|e|c] s2] t2]; cbn [fst snd] in *.
    + cbn [app remote_calls List.filter is_remote import_requests].
      fold (remote_calls t2). now rewrite Hloop.
    + assert (exists line,
        match e with
        | NoCredentialsError _ => Some (print (σ := σ) "Credentials not available.")
        | PartialCredentialsError _ => Some (print "Incomplete credentials provided.")
        | _ => Some (print ("An error occurred: " +:+ str_exn e))
        end = Some (print line)) as [line ->] by (destruct e; eauto).
      unfold print. cbn [fst snd app remote_calls List.filter is_remote import_requests].
      fold (remote_calls (t2 ++ [Print line])).
      rewrite remote_calls_app, import_requests_app, Hloop. cbn.
      now rewrite !app_nil_r.
    + cbn [app remote_calls List.filter is_remote import_requests].
      fold (remote_calls t2). now rewrite Hloop.
  - unfold trace.
    now rewrite (ingest_listing_empty bucket_name datastore_id data_access_role_arn
                   s s1 H).
  - unfold trace.
    now rewrite (ingest_listing_failed bucket_name datastore_id data_access_role_arn
                   e s s1 H).
Qed.

End IngestFurther.

Section IngestReport.
Variables (bucket_name datastore_id data_access_role_arn : string).

Local Abbreviation request := (import_request bucket_name datastore_id data_access_role_arn).

(** The events of one object whose import call returns or is refused. *)
Local Abbreviation object_events w :=
  (fun key =>
     [Print ("Ingesting " +:+ s3_uri bucket_name key +:+ " into AWS HealthLake...");
      StartFHIRImportJob (request key);
      Print (ingest_report (s3_uri bucket_name key) (import_result w (request key)))]).

Lemma ingest_loop_report (w : service) (keys : list string) :
  (forall key, In key keys ->
     match import_result w (request key) with
     | inl _ => True
     | inr e => is_client_error e = true
     end) ->
  for_each keys (ingest_object bucket_name datastore_id data_access_role_arn) w
  = (Ret tt, w, flat_map (object_events w) keys).
Proof.
  induction keys as [|key keys IH]; intros Hok; [reflexivity|].
  cbn [for_each flat_map]. unfold bind at 1.
  assert (ingest_object bucket_name datastore_id data_access_role_arn key w
          = (Ret tt, w, object_events w key)) as ->.
  { specialize (Hok key (or_introl eq_refl)).
    unfold ingest_object, try_except, bind, call, print.
    cbn [start_fhir_import_job service_healthlake].
    destruct (import_result w (request key)) as [job|e]; [reflexivity|].
    destruct e; try discriminate Hok. reflexivity. }
  rewrite IH; [reflexivity|]. intros k Hk. apply Hok. now right.
Qed.

(** An ingest in which every import call returns or is refused by
    the service with a [ClientError] goes through the whole listing: one
    request per listed key, in order, and for each object the line that
    announces it followed by the line with its job id or with the
    refusal. *)
Lemma ingest_listed_reports (w : service) (keys : list string) :
  listing w bucket_name = inl (Some keys) ->
  (forall key, In key keys ->
     match import_result w (request key) with
     | inl _ => True
     | inr e => is_client_error e = true
     end) ->
  let run := ingest_listed bucket_name datastore_id data_access_role_arn in
  outcome run w = Ret tt
  /\ import_requests (trace run w) = map request keys
  /\ printed (trace run w)
     = flat_map
         (fun key =>
            ["Ingesting " +:+ s3_uri bucket_name key +:+ " into AWS HealthLake...";
             ingest_report (s3_uri bucket_name key) (import_result w (request key))])
         keys.
Proof.
  intros Hlist Hok. cbn zeta.
  assert (ingest_listed bucket_name datastore_id data_access_role_arn w
          = (Ret tt, w, ListObjectsV2 bucket_name :: flat_map (object_events w) keys))
    as Hrun.
  { unfold ingest_listed, try_except, bind, call.
    cbn [list_objects_v2 service_s3]. rewrite Hlist.
    now rewrite (ingest_loop_report w keys Hok). }
  unfold outcome, trace. rewrite Hrun.
  cbn [fst snd import_requests printed]. split; [reflexivity|].
  clear Hok Hlist Hrun. induction keys as [|key keys [IHr IHp]]; [now split|].
  cbn [flat_map app import_requests printed map]. now rewrite IHr, IHp.
Qed.

End IngestReport.

Section IngestListed.
Context {σ : Type} `{B3 : Boto3 σ} `{S3 : S3Client σ} `{HL : HealthLakeClient σ}.
Variables (bucket_name datastore_id data_access_role_arn : string).

(** An import request is only ever made for an object of the
    listing: when the listing fails or has no 'Contents' no request is
    made, and otherwise each request names a listed key, whose object in
    the listed bucket is its input. *)
Lemma ingest_listed_requests (s : σ) (req : ImportJobRequest) :
  In req (import_requests
            (trace (ingest_listed bucket_name datastore_id data_access_role_arn) s)) ->
  exists keys key,
    fst (list_objects_v2 bucket_name s) = inl (Some keys)
    /\ In key keys
    /\ req = import_request bucket_name datastore_id data_access_role_arn key
    /\ InputS3Uri req = "s3://" +:+ bucket_name +:+ "/" +:+ key.
Proof.
  intros Hin. destruct (list_objects_v2 bucket_name s) as [[[keys|]|e] s1] eqn:H.
  - destruct (ingest_listing_keys bucket_name datastore_id data_access_role_arn
                keys s s1 H) as (_ & Hreq & _).
    rewrite Hreq in Hin. apply in_map_iff in Hin as (key & <- & Hkey).
    destruct (submitted_keys_prefix bucket_name datastore_id data_access_role_arn
                keys s1) as [rest Hrest].
    exists keys, key. split; [reflexivity|]. split; [|now split].
    rewrite Hrest. apply in_or_app. now left.
  - unfold trace in Hin.
    rewrite (ingest_listing_empty bucket_name datastore_id data_access_role_arn
               s s1 H) in Hin. destruct Hin.
  - unfold trace in Hin.
    rewrite (ingest_listing_failed bucket_name datastore_id data_access_role_arn
               e s s1 H) in Hin. destruct Hin.
Qed.

End IngestListed.

(** ** The status of a sync *)

Section SyncStatus.
Context {σ : Type} `{B3 : Boto3 σ} `{S3 : S3Client σ} `{HL : HealthLakeClient σ}.

Lemma store_loop_raises (pjoin : string -> string -> string) (sep : ascii)
    (bucket_name dir : string)
    (items : list (list string)) :
  forall s,
    existence_checks_answered pjoin sep bucket_name dir items s = false ->
    exists e,
      outcome (for_each items (upload_bundle pjoin sep bucket_name dir)) s = Raise e
      /\ is_client_error e = false.
Proof.
  induction items as [|names items IH]; intros s Hbad; [discriminate Hbad|].
  cbn [existence_checks_answered] in Hbad. cbn [for_each]. rewrite bind_outcome.
  pose proof (upload_to_s3_outcome (file_path_of pjoin dir names) bucket_name
                (object_name_of sep names) s) as Hstep.
  fold (upload_bundle pjoin sep bucket_name dir names) in Hstep. rewrite Hstep.
  destruct (fst (head_object bucket_name (object_name_of sep names) s)) as [u|e].
  - cbn [andb] in Hbad. now apply IH.
  - destruct (is_client_error e) eqn:He; [cbn [andb] in Hbad; now apply IH|].
    now exists e.
Qed.

End SyncStatus.

(** ** Trailing separators *)

Lemma endswith_char_append (front name : string) (c : ascii) :
  name <> "" ->
  Py.endswith (front +:+ name) (String c "") = Py.endswith name (String c "").
Proof.
  intros Hne. induction front as [|d front IH]; [reflexivity|].
  change (String d front +:+ name) with (String d (front +:+ name)).
  cbn [Py.endswith]. rewrite IH.
  replace (String.eqb (String d (front +:+ name)) (String c "")) with false;
    [reflexivity|].
  cbn [String.eqb]. destruct (Ascii.eqb d c); [|reflexivity].
  destruct front as [|x front]; [|reflexivity].
  destruct name; [congruence|reflexivity].
Qed.

Example trailing_separator_is_not_doubled :
  file_path_of posixpath_join "/data/" ["p1"; "a.json"] = "/data/p1/a.json".
Proof. reflexivity. Qed.

(** * The operations with their session and clients *)

(** ** Building the clients *)

Section Clients.
Context {σ : Type} `{B3 : Boto3 σ}.

Lemma new_clients_trace (sess : session) (names : list string) :
  forall s, trace (for_each names (new_client sess)) s = []
            /\ forall c, outcome (for_each names (new_client sess)) s <> Exit c.
Proof.
  induction names as [|name names IH]; intros s; [split; [reflexivity|discriminate]|].
  cbn [for_each]. rewrite bind_trace, bind_outcome.
  assert (trace (new_client sess name) s = []
          /\ forall c, outcome (new_client sess name) s <> Exit c) as [Ht Ho].
  { unfold trace, outcome, new_client.
    destruct (session_client sess name s) as [[u|e] s1]; split; try reflexivity;
      discriminate. }
  destruct (outcome (new_client sess name) s) as [u|e|c].
  - rewrite Ht. destruct (IH (final (new_client sess name) s)) as [IHt IHo].
    now rewrite IHt.
  - split; [exact Ht|discriminate].
  - now destruct (Ho c).
Qed.

(** Building the session and clients sends nothing and never calls
    [sys.exit]. *)
Lemma clients_silent (h : host) (names : list string) (s : σ) :
  trace (clients h names) s = []
  /\ forall c, outcome (clients h names) s <> Exit c.
Proof.
  unfold clients. rewrite bind_trace, bind_outcome.
  assert (trace (new_session h) s = []
          /\ forall c, outcome (new_session h) s <> Exit c) as [Ht Ho].
  { unfold trace, outcome, new_session.
    destruct (boto3_Session (session_of h) s) as [[u|e] s1]; split; try reflexivity;
      discriminate. }
  destruct (outcome (new_session h) s) as [sess|e|c].
  - rewrite Ht. destruct (new_clients_trace sess names (final (new_session h) s))
      as [IHt IHo]. now rewrite IHt.
  - split; [exact Ht|discriminate].
  - now destruct (Ho c).
Qed.

(** A computation that begins by building the clients: it is the rest of
    the computation from the state the clients leave, or the exception of
    the construction and nothing else. *)
Lemma after_clients {A} (h : host) (names : list string) (k : prog σ A) (s : σ) :
  (outcome (clients h names) s = Ret tt
   /\ outcome (bind (clients h names) (fun _ => k)) s
      = outcome k (final (clients h names) s)
   /\ trace (bind (clients h names) (fun _ => k)) s
      = trace k (final (clients h names) s)
   /\ final (bind (clients h names) (fun _ => k)) s
      = final k (final (clients h names) s))
  \/ (exists e,
        outcome (clients h names) s = Raise e
        /\ outcome (bind (clients h names) (fun _ => k)) s = Raise e
        /\ trace (bind (clients h names) (fun _ => k)) s = []
        /\ final (bind (clients h names) (fun _ => k)) s = final (clients h names) s).
Proof.
  rewrite bind_outcome, bind_trace, bind_final.
  destruct (clients_silent h names s) as [Ht Ho]. rewrite Ht.
  destruct (outcome (clients h names) s) as [[]|e|c].
  - left. auto.
  - right. exists e. auto.
  - now destruct (Ho c).
Qed.

End Clients.

(** On the service model building the clients leaves the service as it
    is, and succeeds or fails by the faults set for the session. *)
Lemma service_clients (h : host) (names : list string) (w : service) :
  final (clients h names) w = w
  /\ forall w',
       session_fault w' = session_fault w ->
       client_fault w' = client_fault w ->
       outcome (clients h names) w' = outcome (clients h names) w.
Proof.
  assert (forall sess w0,
    final (for_each names (new_client sess)) w0 = w0
    /\ forall w',
         client_fault w' = client_fault w0 ->
         outcome (for_each names (new_client sess)) w'
         = outcome (for_each names (new_client sess)) w0) as Hloop.
  { intros sess. induction names as [|name names IH]; intros w0;
      [split; [reflexivity|intros; reflexivity]|].
    cbn [for_each]. rewrite bind_final.
    assert (final (new_client sess name) w0 = w0) as Hf
      by (unfold final, new_client; cbn [session_client service_boto3]; reflexivity).
    assert (forall w', client_fault w' = client_fault w0 ->
                       outcome (new_client sess name) w' = outcome (new_client sess name) w0)
      as Ho.
    { intros w' Hc. unfold outcome, new_client. cbn [session_client service_boto3].
      now rewrite Hc. }
    destruct (IH w0) as [IHf IHo]. split.
    - destruct (outcome (new_client sess name) w0); rewrite Hf; [exact IHf| |]; reflexivity.
    - intros w' Hc. rewrite !bind_outcome, (Ho w' Hc).
      assert (final (new_client sess name) w' = w') as ->
        by (unfold final, new_client; cbn [session_client service_boto3]; reflexivity).
      rewrite Hf. destruct (outcome (new_client sess name) w0); try reflexivity.
      destruct (IH w') as [_ IHo']. rewrite (IHo' w0 (eq_sym Hc)). reflexivity. }
  unfold clients. rewrite bind_final.
  assert (final (new_session h) w = w) as Hf
    by (unfold final, new_session; cbn [boto3_Session service_boto3]; reflexivity).
  split.
  - destruct (outcome (new_session h) w) as [sess|e|c]; rewrite Hf; try reflexivity.
    apply Hloop.
  - intros w' Hs Hc. rewrite !bind_outcome.
    assert (outcome (new_session h) w' = outcome (new_session h) w) as ->.
    { unfold outcome, new_session. cbn [boto3_Session service_boto3]. now rewrite Hs. }
    assert (final (new_session h) w' = w') as ->
      by (unfold final, new_session; cbn [boto3_Session service_boto3]; reflexivity).
    rewrite Hf. destruct (outcome (new_session h) w) as [sess|e|c]; try reflexivity.
    now apply Hloop.
Qed.

(** ** The sync *)

Lemma replace_length (s : string) (old new : ascii) :
  String.length (Py.replace s old new) = String.length s.
Proof. induction s as [|c s IH]; cbn; [reflexivity|now rewrite IH]. Qed.

Lemma replace_get (s : string) (i : nat) :
  String.get i (Py.replace s backslash slash) = option_map to_slash (String.get i s).
Proof.
  revert i. induction s as [|c s IH]; intros i; [reflexivity|].
  destruct i as [|i]; [reflexivity|]. cbn [Py.replace String.get]. apply IH.
Qed.

Lemma contains_get (s : string) (c : ascii) :
  (forall i, String.get i s <> Some c) -> Py.contains s c = false.
Proof.
  induction s as [|d s IH]; intros Hno; [reflexivity|]. cbn [Py.contains].
  rewrite IH by (intros i; exact (Hno (S i))). rewrite orb_false_r.
  apply Ascii.eqb_neq. intros ->. now apply (Hno 0%nat).
Qed.

Lemma get_absent (s : string) (c : ascii) :
  Py.contains s c = false -> forall i, String.get i s <> Some c.
Proof.
  induction s as [|d s IH]; intros Hno i; [now destruct i|].
  cbn [Py.contains] in Hno. apply orb_false_iff in Hno as [Hd Hs].
  destruct i as [|i]; [|now apply IH]. cbn [String.get].
  apply Ascii.eqb_neq in Hd. congruence.
Qed.

Section Sync.
Context {σ : Type} `{B3 : Boto3 σ} `{S3 : S3Client σ}.

(** What a run of [store_s3] is, by the construction of the client. *)
Lemma store_s3_cases (h : host) (bucket_name dir : string)
    (entries : list (string * node)) (s : σ) :
  let loops := store_bundles (join_str h) (os_sep h) bucket_name dir entries in
  let s0 := final (clients h ["s3"]) s in
  (outcome (clients h ["s3"]) s = Ret tt
   /\ outcome (store_s3 h bucket_name dir entries) s = outcome loops s0
   /\ trace (store_s3 h bucket_name dir entries) s = trace loops s0
   /\ final (store_s3 h bucket_name dir entries) s = final loops s0)
  \/ (exists e,
        outcome (clients h ["s3"]) s = Raise e
        /\ outcome (store_s3 h bucket_name dir entries) s = Raise e
        /\ trace (store_s3 h bucket_name dir entries) s = []
        /\ final (store_s3 h bucket_name dir entries) s = s0).
Proof. apply after_clients. Qed.

(** C5 (as amended).  The files that [store_s3] hands to the upload step
    are the files below the directory whose name is some stem followed
    by '.json', and no others.  In every run each existence check and each
    put concerns such a file, and in a run that reaches its end every such
    file has had its existence check, once and in the order of the walk.
    The object key of a file is its path relative to the directory with
    every backslash replaced by '/', character by character; on a host
    whose separator is '/' or the backslash, and for names that hold no
    backslash, this is the sequence of its names separated by '/'. *)
Theorem store_s3_selects_bundles (h : host) (bucket_name dir : string)
    (entries : list (string * node)) :
  (forall names,
      In names (bundle_files dir entries) <->
      In names (files_under entries)
      /\ exists stem, List.last names "" = stem +:+ ".json")
  /\ (forall (s : σ) ev,
        In ev (remote_calls (trace (store_s3 h bucket_name dir entries) s)) ->
        exists names,
          In names (bundle_files dir entries)
          /\ (ev = HeadObject bucket_name (object_name_of (os_sep h) names)
              \/ ev = UploadFile (file_path_of (join_str h) dir names) bucket_name
                        (object_name_of (os_sep h) names) "application/json"))
  /\ (forall s : σ,
        outcome (store_s3 h bucket_name dir entries) s = Ret tt ->
        head_object_keys (trace (store_s3 h bucket_name dir entries) s)
        = map (object_name_of (os_sep h)) (bundle_files dir entries))
  /\ (forall names,
        let relative := String.concat (String (os_sep h) "") names in
        let key := object_name_of (os_sep h) names in
        String.length key = String.length relative
        /\ forall i, String.get i key = option_map to_slash (String.get i relative))
  /\ (forall names,
        os_sep h = slash \/ os_sep h = backslash ->
        List.Forall (fun name => forall i, String.get i name <> Some backslash) names ->
        object_name_of (os_sep h) names = String.concat "/" names).
Proof.
  split; [|split; [|split; [|split]]].
  - intros names. rewrite bundle_files_iff, endswith_spec. reflexivity.
  - intros s ev Hin.
    destruct (store_s3_cases h bucket_name dir entries s)
      as [(_ & _ & Ht & _)|(e & _ & _ & Ht & _)]; rewrite Ht in Hin; [|destruct Hin].
    unfold trace in Hin. rewrite store_bundles_for_each in Hin.
    now apply (for_each_upload_keys (join_str h) (os_sep h) bucket_name dir) in Hin.
  - intros s Hret.
    destruct (store_s3_cases h bucket_name dir entries s)
      as [(_ & Ho & Ht & _)|(e & _ & Ho & _)]; rewrite Ho in Hret; [|discriminate Hret].
    rewrite Ht. unfold outcome, trace in *. rewrite store_bundles_for_each in *.
    now apply for_each_upload_keys.
  - intros names. cbn zeta. unfold object_name_of, Py.join, sep_str.
    split; [apply replace_length|intros i; apply replace_get].
  - intros names Hsep Hnames. apply object_name_slashes; [exact Hsep|].
    eapply List.Forall_impl; [|exact Hnames]. intros name Hname. now apply contains_get.
Qed.

End Sync.

(** The directory of the scenario ('a.json', 'b.json', 'c.txt') against an
    empty bucket: two existence checks, on the keys 'a.json' and 'b.json';
    and a file two directories down. *)
Lemma store_s3_selects_bundles_witness :
  head_object_keys
    (trace (store_s3 (posix_host all_set) "bkt" "/data" bundles_dir) (healthy ∅ None))
  = ["a.json"; "b.json"]
  /\ object_name_of slash ["p1"; "deep"; "b.json"] = "p1/deep/b.json".
Proof.
  destruct (store_s3_selects_bundles (σ := service) (posix_host all_set) "bkt" "/data"
              bundles_dir) as (_ & _ & Hkeys & _ & Hslash).
  split.
  - rewrite Hkeys; [reflexivity|]. vm_compute. reflexivity.
  - apply (Hslash ["p1"; "deep"; "b.json"]); [now left|].
    repeat constructor; now apply get_absent.
Defined.

(** On a POSIX host a file named 'x\y.json' lies directly in the
    directory, so its relative path is its name and holds no separator;
    its key is 'x/y.json'. *)
Lemma store_s3_selects_bundles_counterexample :
  os_sep (posix_host all_set) = slash
  /\ In ["x\y.json"] (files_under backslash_dir)
  /\ os_path_relpath slash (mkPath "/data" ["x\y.json"]) = "x\y.json"
  /\ trace (store_s3 (posix_host all_set) "bkt" "/data" backslash_dir)
       (healthy {[ ("bkt", "x/y.json") ]} None)
     = [HeadObject "bkt" "x/y.json";
        Print "File already exists in s3://bkt/x/y.json, skipping upload."]
  /\ object_name_of slash ["x\y.json"]
     <> os_path_relpath slash (mkPath "/data" ["x\y.json"]).
Proof.
  split; [reflexivity|]. split; [now left|]. split; [reflexivity|].
  split; [vm_compute; reflexivity|]. vm_compute. discriminate.
Qed.

Example sync_scenario :
  trace (main (posix_host all_set) store_argv) (healthy ∅ None)
  = [HeadObject "bkt" "a.json";
     UploadFile "/data/a.json" "bkt" "a.json" "application/json";
     Print "File uploaded successfully to s3://bkt/a.json";
     HeadObject "bkt" "b.json";
     UploadFile "/data/b.json" "bkt" "b.json" "application/json";
     Print "File uploaded successfully to s3://bkt/b.json"].
Proof. vm_compute. reflexivity. Qed.

(** C8.  The directory holds the bundle files 'a.json' and 'b.json' and no
    credentials are available: the existence check of 'a.json' raises
    [NoCredentialsError], which no clause of [upload_to_s3] catches at that
    point.  Nothing is printed for 'a.json', 'b.json' is never looked at,
    and the exception ends the process. *)
Theorem store_s3_aborts_without_credentials :
  bundle_files "/data" bundles_dir = [["a.json"]; ["b.json"]]
  /\ outcome (main (posix_host ∅) store_argv) without_credentials
     = Raise no_credentials
  /\ trace (main (posix_host ∅) store_argv) without_credentials
     = [HeadObject "bkt" "a.json"]
  /\ process_exit_code (posix_host ∅) store_argv without_credentials = 1%Z.
Proof. repeat split; vm_compute; reflexivity. Qed.


(** C9.  No credentials are available and the existence check raises
    [NoCredentialsError]: [upload_to_s3] issues no put and does not report
    the file as present, but it records nothing either; the exception
    leaves it uncaught. *)
Theorem upload_to_s3_records_nothing_without_credentials :
  fst (head_object "bkt" "a.json" without_credentials) = inr no_credentials
  /\ outcome (upload_to_s3 "/data/a.json" "bkt" "a.json") without_credentials
     = Raise no_credentials
  /\ trace (upload_to_s3 "/data/a.json" "bkt" "a.json") without_credentials
     = [HeadObject "bkt" "a.json"]
  /\ printed (trace (upload_to_s3 "/data/a.json" "bkt" "a.json") without_credentials)
     = [].
Proof. repeat split; vm_compute; reflexivity. Qed.

(** ** The sync against the bucket model, with its client *)

Lemma service_upload_keeps_clients (file_path bucket key : string) (w : service) :
  session_fault (final (upload_to_s3 file_path bucket key) w) = session_fault w
  /\ client_fault (final (upload_to_s3 file_path bucket key) w) = client_fault w.
Proof.
  unfold final.
  destruct (head_object bucket key w) as [r w1] eqn:H.
  assert (w1 = w) as ->.
  { cbn [head_object service_s3] in H. unfold service_head_object in H.
    destruct (head_fault w bucket key); [now injection H|].
    destruct (bool_decide ((bucket, key) ∈ objects w)); now injection H. }
  destruct r as [[]|e].
  - now rewrite (upload_to_s3_found file_path _ _ _ _ H).
  - destruct (is_client_error e) eqn:He.
    + destruct e as [code msg| | | |]; try discriminate He.
      destruct (String.eqb code "404") eqn:Hc.
      * apply String.eqb_eq in Hc. subst code.
        destruct (upload_to_s3_absent file_path _ _ _ _ _ H) as (line & -> & _).
        cbn [fst snd upload_file service_s3]. unfold service_upload_file.
        now destruct (put_fault w file_path bucket key).
      * now rewrite (upload_to_s3_rejected file_path _ _ _ _ _ _ H Hc).
    + now rewrite (upload_to_s3_escapes file_path _ _ _ _ _ H He).
Qed.

Lemma service_loop_keeps_clients (pjoin : string -> string -> string) (sep : ascii)
    (bucket_name dir : string) (items : list (list string)) :
  forall w,
    session_fault (final (for_each items (upload_bundle pjoin sep bucket_name dir)) w)
    = session_fault w
    /\ client_fault (final (for_each items (upload_bundle pjoin sep bucket_name dir)) w)
       = client_fault w.
Proof.
  induction items as [|names items IH]; intros w; [now split|].
  cbn [for_each]. rewrite bind_final.
  destruct (service_upload_keeps_clients (file_path_of pjoin dir names) bucket_name
              (object_name_of sep names) w) as [Hs Hc].
  fold (upload_bundle pjoin sep bucket_name dir names) in Hs, Hc.
  destruct (outcome (upload_bundle pjoin sep bucket_name dir names) w);
    [|now split|now split].
  destruct (IH (final (upload_bundle pjoin sep bucket_name dir names) w)) as [IHs IHc].
  now rewrite IHs, IHc, Hs, Hc.
Qed.

Section SyncOnBucket.
Variables (h : host) (bucket_name dir : string) (entries : list (string * node)).

(** On the service model a run of [store_s3] whose client is built is the
    run of its loops from the same service. *)
Lemma store_s3_on_service (w : service) :
  (outcome (clients h ["s3"]) w = Ret tt
   /\ store_s3 h bucket_name dir entries w
      = store_bundles (join_str h) (os_sep h) bucket_name dir entries w)
  \/ (exists e,
        outcome (clients h ["s3"]) w = Raise e
        /\ store_s3 h bucket_name dir entries w = (Raise e, w, [])).
Proof.
  destruct (service_clients h ["s3"] w) as [Hfin _].
  destruct (store_s3_cases h bucket_name dir entries w)
    as [(Hc & Ho & Ht & Hf)|(e & Hc & Ho & Ht & Hf)]; cbn zeta in *;
    rewrite Hfin in *; unfold outcome, trace, final in Ho, Ht, Hf.
  - left. split; [exact Hc|].
    destruct (store_s3 h bucket_name dir entries w) as [[r w1] t].
    destruct (store_bundles (join_str h) (os_sep h) bucket_name dir entries w)
      as [[r' w1'] t']. cbn [fst snd] in *. congruence.
  - right. exists e. split; [exact Hc|].
    destruct (store_s3 h bucket_name dir entries w) as [[r w1] t].
    cbn [fst snd] in *. congruence.
Qed.

(** C2 (as amended).  On a service whose existence check is truthful, for
    every directory and every bucket state: when the first run of the sync
    ends with no file reported as failed, a second run over the same
    directory, against the bucket the first run left, finds every bundle
    file at its key and skips it; it issues no put and changes nothing. *)
Theorem sync_second_run_skips (w : service) :
  truthful w ->
  outcome (store_s3 h bucket_name dir entries) w = Ret tt ->
  no_failure (trace (store_s3 h bucket_name dir entries) w) = true ->
  let w1 := final (store_s3 h bucket_name dir entries) w in
  let second := store_s3 h bucket_name dir entries in
  outcome second w1 = Ret tt
  /\ trace second w1
     = flat_map (skipped_trace (os_sep h) bucket_name) (bundle_files dir entries)
  /\ uploads (trace second w1) = []
  /\ upload_outcomes (trace second w1)
     = map (fun _ => Skipped) (bundle_files dir entries)
  /\ final second w1 = w1.
Proof.
  intros Ht Hret Hno. cbn zeta.
  destruct (store_s3_on_service w) as [[Hc Hrun]|(e & _ & Hrun)];
    unfold outcome, trace, final in *; rewrite Hrun in *; [|discriminate Hret].
  set (w1 := (store_bundles (join_str h) (os_sep h) bucket_name dir entries w).1.2).
  assert (outcome (clients h ["s3"]) w1 = Ret tt) as Hc1.
  { destruct (service_clients h ["s3"] w) as [_ Hsame].
    rewrite <- Hc. apply Hsame; subst w1; rewrite store_bundles_for_each;
      apply (service_loop_keeps_clients (join_str h) (os_sep h) bucket_name dir). }
  destruct (store_s3_on_service w1) as [[_ Hrun1]|(e & Hc1' & _)];
    [|unfold outcome in *; congruence].
  rewrite Hrun1.
  exact (store_bundles_second_run (join_str h) (os_sep h) bucket_name dir entries w
           Ht Hret Hno).
Qed.

End SyncOnBucket.

(** The scenario directory against an empty, healthy bucket. *)
Lemma sync_second_run_skips_witness :
  let first := store_s3 (posix_host all_set) "bkt" "/data" bundles_dir in
  uploads (trace first (final first (healthy ∅ None))) = []
  /\ upload_outcomes (trace first (final first (healthy ∅ None))) = [Skipped; Skipped].
Proof.
  destruct (sync_second_run_skips (posix_host all_set) "bkt" "/data" bundles_dir
              (healthy ∅ None)) as (_ & _ & Hu & Ho & _).
  - intros bucket key msg H. discriminate H.
  - vm_compute. reflexivity.
  - vm_compute. reflexivity.
  - split; [exact Hu|exact Ho].
Defined.

(** A bucket that cannot be written: the first run fails to upload
    'a.json' and 'b.json', the bucket it leaves is still empty, and the
    second run issues both puts again; no outcome of it is Skipped. *)
Lemma sync_second_run_counterexample :
  let first := store_s3 (posix_host all_set) "bkt" "/data" bundles_dir in
  let w1 := final first read_only in
  uploads (trace first w1)
  = [UploadFile "/data/a.json" "bkt" "a.json" "application/json";
     UploadFile "/data/b.json" "bkt" "b.json" "application/json"]
  /\ upload_outcomes (trace first w1) = [Failed; Failed]
  /\ ~ (uploads (trace first w1) = []
        /\ Forall (fun o => o = Skipped) (upload_outcomes (trace first w1))).
Proof.
  cbn zeta. split; [vm_compute; reflexivity|]. split; [vm_compute; reflexivity|].
  intros [H _]. vm_compute in H. discriminate H.
Qed.

Lemma service_clients_built (h : host) (names : list string) (w : service) :
  session_fault w (session_of h) = None ->
  (forall name, In name names -> client_fault w (session_of h) name = None) ->
  outcome (clients h names) w = Ret tt.
Proof.
  intros Hs Hc. unfold clients. rewrite bind_outcome.
  assert (outcome (new_session h) w = Ret (session_of h)) as ->
    by (unfold outcome, new_session; cbn [boto3_Session service_boto3]; now rewrite Hs).
  assert (final (new_session h) w = w) as ->
    by (unfold final, new_session; cbn [boto3_Session service_boto3]; reflexivity).
  induction names as [|name names IH]; [reflexivity|].
  cbn [for_each]. rewrite bind_outcome.
  assert (outcome (new_client (session_of h) name) w = Ret tt) as ->.
  { unfold outcome, new_client. cbn [session_client service_boto3].
    now rewrite (Hc name (or_introl eq_refl)). }
  assert (final (new_client (session_of h) name) w = w) as ->
    by (unfold final, new_client; cbn [session_client service_boto3]; reflexivity).
  apply IH. intros n Hn. apply Hc. now right.
Qed.

Section SyncMore.
Context {σ : Type} `{B3 : Boto3 σ} `{S3 : S3Client σ} `{HL : HealthLakeClient σ}.
Variables (h : host) (bucket_name dir : string) (entries : list (string * node)).

Local Abbreviation sync := (store_s3 (σ := σ) h bucket_name dir entries).
Local Abbreviation loops :=
  (store_bundles (σ := σ) (join_str h) (os_sep h) bucket_name dir entries).

Lemma main_store (script : string) :
  directory_at h dir = Some entries ->
  main (σ := σ) h [script; "store-s3"; "--bucket-name"; bucket_name; "--path"; dir]
  = sync.
Proof.
  intros Hdir. unfold main.
  cbn [length Nat.ltb Nat.leb argv_at nth Nat.eqb negb orb].
  rewrite !String.eqb_refl. cbn [negb orb]. now rewrite Hdir.
Qed.

(** X8.  A sync that runs to its end has printed exactly one line per
    bundle file; a sync whose client was built and that is ended by an
    exception has printed fewer lines than there are bundle files; no sync
    prints more lines than there are bundle files. *)
Theorem store_s3_one_line_per_file (s : σ) :
  (outcome sync s = Ret tt ->
   length (printed (trace sync s)) = length (bundle_files dir entries))
  /\ (forall e,
        outcome (clients h ["s3"]) s = Ret tt ->
        outcome sync s = Raise e ->
        (length (printed (trace sync s)) < length (bundle_files dir entries))%nat)
  /\ (length (printed (trace sync s)) <= length (bundle_files dir entries))%nat.
Proof.
  destruct (store_bundles_lines (join_str h) (os_sep h) bucket_name dir entries
              (final (clients h ["s3"]) s)) as [Hret Hraise].
  destruct (store_s3_cases h bucket_name dir entries s)
    as [(Hc & Ho & Ht & _)|(e & Hc & Ho & Ht & _)]; cbn zeta in *; rewrite Ho, Ht.
  - split; [exact Hret|]. split; [intros e _; apply Hraise|].
    pose proof (store_bundles_never_exits (join_str h) (os_sep h) bucket_name dir
                  entries (final (clients h ["s3"]) s)) as Hne.
    destruct (outcome loops (final (clients h ["s3"]) s)) as [[]|e|c] eqn:Hl.
    + rewrite Hret; [lia|reflexivity].
    + specialize (Hraise e eq_refl). lia.
    + now destruct (Hne c).
  - split; [discriminate|]. split; [|cbn; lia].
    intros e' Hc'. rewrite Hc' in Hc. discriminate Hc.
Qed.


(** X14.  Every object the sync checks or puts lies in the bucket given on
    the command line, under a key that ends in '.json' and holds no
    backslash; a put always declares the content type application/json. *)
Theorem store_s3_touches_json_keys (s : σ) (ev : event) :
  In ev (remote_calls (trace sync s)) ->
  exists key,
    (ev = HeadObject bucket_name key
     \/ exists file_path, ev = UploadFile file_path bucket_name key "application/json")
    /\ Py.endswith key ".json" = true
    /\ Py.contains key backslash = false.
Proof.
  intros Hin.
  destruct (store_s3_cases h bucket_name dir entries s)
    as [(_ & _ & Ht & _)|(e & _ & _ & Ht & _)]; rewrite Ht in Hin; [|destruct Hin].
  exact (store_bundles_touches_json_keys (join_str h) (os_sep h) bucket_name dir
           entries _ ev Hin).
Qed.

(** X19.  With a well-formed [store-s3] command line whose path is a
    directory, the status of the process is 0 exactly when the client can
    be built and no existence check of the run raises an exception other
    than [ClientError]; neither failed puts nor refused existence checks
    change it.  In every other case the status is 1. *)
Theorem sync_exit_status_iff (script : string) (s : σ) :
  directory_at h dir = Some entries ->
  let argv := [script; "store-s3"; "--bucket-name"; bucket_name; "--path"; dir] in
  (process_exit_code h argv s = 0%Z <->
   outcome (clients h ["s3"]) s = Ret tt
   /\ existence_checks_answered (join_str h) (os_sep h) bucket_name dir
        (bundle_files dir entries) (final (clients h ["s3"]) s) = true)
  /\ (process_exit_code h argv s <> 0%Z -> process_exit_code h argv s = 1%Z).
Proof.
  intros Hdir. cbn zeta. unfold process_exit_code. rewrite (main_store script Hdir).
  destruct (store_s3_cases h bucket_name dir entries s)
    as [(Hc & Ho & _)|(e & Hc & Ho & _)]; cbn zeta in *; rewrite Ho.
  - unfold outcome at 1 3 4. rewrite store_bundles_for_each.
    destruct (existence_checks_answered (join_str h) (os_sep h) bucket_name dir
                (bundle_files dir entries) (final (clients h ["s3"]) s)) eqn:Hok.
    + pose proof (store_loop_returns _ _ _ _ _ _ Hok) as Hret.
      unfold outcome in Hret. rewrite Hret. cbn. split; [now split|congruence].
    + destruct (store_loop_raises _ _ _ _ _ _ Hok) as (e & Hraise & _).
      unfold outcome in Hraise. rewrite Hraise. cbn.
      split; [split; [discriminate|intros [_ H]; discriminate H]|reflexivity].
  - cbn. rewrite Hc.
    split; [split; [discriminate|intros [H _]; discriminate H]|reflexivity].
Qed.

End SyncMore.

Section SyncBucketMore.
Variables (h : host) (bucket_name dir : string) (entries : list (string * node)).

(** X10.  On a bucket whose existence check is truthful, the sync never
    overwrites: every put it issues is for a key that the bucket did not
    hold when the sync began. *)
Theorem sync_never_overwrites (w : service) (file_path key content_type : string) :
  truthful w ->
  In (UploadFile file_path bucket_name key content_type)
     (trace (store_s3 h bucket_name dir entries) w) ->
  (bucket_name, key) ∉ objects w.
Proof.
  intros Ht Hin.
  destruct (store_s3_on_service h bucket_name dir entries w)
    as [[_ Hrun]|(e & _ & Hrun)]; unfold trace in Hin; rewrite Hrun in Hin;
    [|destruct Hin].
  exact (store_bundles_never_overwrites (join_str h) (os_sep h) bucket_name dir
           entries w file_path key content_type Ht Hin).
Qed.

(** X11.  On a service without faults, neither in building the client nor
    in its calls, the sync runs to its end with no file reported as
    failed, and the bucket then holds what it held before together with
    the key of every bundle file. *)
Theorem sync_stores_every_bundle (w : service) :
  session_fault w (session_of h) = None ->
  client_fault w (session_of h) "s3" = None ->
  (forall b k, head_fault w b k = None) ->
  (forall p b k, put_fault w p b k = None) ->
  outcome (store_s3 h bucket_name dir entries) w = Ret tt
  /\ no_failure (trace (store_s3 h bucket_name dir entries) w) = true
  /\ objects (final (store_s3 h bucket_name dir entries) w)
     = list_to_set (map (fun names => (bucket_name, object_name_of (os_sep h) names))
                      (bundle_files dir entries)) ∪ objects w.
Proof.
  intros Hs Hc Hhead Hput.
  assert (outcome (clients h ["s3"]) w = Ret tt) as Hbuilt.
  { apply service_clients_built; [exact Hs|]. intros name [<-|[]]. exact Hc. }
  destruct (store_s3_on_service h bucket_name dir entries w)
    as [[_ Hrun]|(e & Hraise & _)]; [|rewrite Hraise in Hbuilt; discriminate Hbuilt].
  unfold outcome, trace, final. rewrite Hrun.
  exact (store_bundles_stores_every_bundle (join_str h) (os_sep h) bucket_name dir
           entries w Hhead Hput).
Qed.

End SyncBucketMore.

(** Two bundle files against a bucket that cannot be written: two lines. *)
Lemma store_s3_one_line_per_file_witness :
  length (printed (trace (store_s3 (posix_host all_set) "bkt" "/data" bundles_dir)
                     read_only))
  = length (bundle_files "/data" bundles_dir).
Proof.
  destruct (store_s3_one_line_per_file (posix_host all_set) "bkt" "/data" bundles_dir
              read_only) as [H _].
  apply H. vm_compute. reflexivity.
Defined.


(** A nested directory: the existence check of the deepest file. *)
Lemma store_s3_touches_json_keys_witness :
  exists key,
    (HeadObject "bkt" "p1/deep/b.json" = HeadObject "bkt" key
     \/ exists file_path,
          HeadObject "bkt" "p1/deep/b.json"
          = UploadFile file_path "bkt" key "application/json")
    /\ Py.endswith key ".json" = true
    /\ Py.contains key backslash = false.
Proof.
  apply (store_s3_touches_json_keys (posix_host all_set) "bkt" "/data" nested_dir
           (healthy ∅ None)).
  vm_compute. tauto.
Defined.

(** Every existence check is refused with code 403: nothing is uploaded
    and the status is 0. *)
Lemma sync_exit_status_iff_witness :
  process_exit_code (posix_host all_set) store_argv head_forbidden = 0%Z.
Proof.
  destruct (sync_exit_status_iff (posix_host all_set) "bkt" "/data" bundles_dir
              "./hiosctl.py" head_forbidden) as [[_ H] _]; [reflexivity|].
  apply H. split; vm_compute; reflexivity.
Defined.

(** 'a.json' is already in the bucket: the one put of the run is for
    'b.json'. *)
Lemma sync_never_overwrites_witness :
  ("bkt", "b.json") ∉ objects (healthy {[ ("bkt", "a.json") ]} None).
Proof.
  apply (sync_never_overwrites (posix_host all_set) "bkt" "/data" bundles_dir
           (healthy {[ ("bkt", "a.json") ]} None) "/data/b.json" "b.json"
           "application/json").
  - intros bucket key msg H. discriminate H.
  - vm_compute. tauto.
Defined.

(** The scenario directory against an empty bucket. *)
Lemma sync_stores_every_bundle_witness :
  objects (final (store_s3 (posix_host all_set) "bkt" "/data" bundles_dir)
             (healthy ∅ None))
  = list_to_set (map (fun names => ("bkt", object_name_of slash names))
                   (bundle_files "/data" bundles_dir)) ∪ ∅.
Proof.
  destruct (sync_stores_every_bundle (posix_host all_set) "bkt" "/data" bundles_dir
              (healthy ∅ None)) as (_ & _ & H); [reflexivity..|exact H].
Defined.

(** ** The ingest *)

Section Ingest.
Context {σ : Type} `{B3 : Boto3 σ} `{S3 : S3Client σ} `{HL : HealthLakeClient σ}.
Variables (h : host) (bucket_name datastore_id data_access_role_arn : string).

Local Abbreviation request := (import_request bucket_name datastore_id data_access_role_arn).
Local Abbreviation ingest :=
  (ingest_healthlake (σ := σ) h bucket_name datastore_id data_access_role_arn).
Local Abbreviation listed :=
  (ingest_listed (σ := σ) bucket_name datastore_id data_access_role_arn).
Local Abbreviation built := (clients (σ := σ) h ["s3"; "healthlake"]).

(** What a run of [ingest_healthlake] is, by the construction of the
    clients. *)
Lemma ingest_cases (s : σ) :
  (outcome built s = Ret tt
   /\ outcome ingest s = outcome listed (final built s)
   /\ trace ingest s = trace listed (final built s)
   /\ final ingest s = final listed (final built s))
  \/ (exists e,
        outcome built s = Raise e
        /\ outcome ingest s = Raise e
        /\ trace ingest s = []
        /\ final ingest s = final built s).
Proof. apply after_clients. Qed.

Lemma main_ingest (script : string) :
  main (σ := σ) h [script; "ingest-healthlake"; "--bucket-name"; bucket_name;
                   "--datastore-id"; datastore_id; "--darole-arn"; data_access_role_arn]
  = ingest.
Proof.
  unfold main. cbn [length Nat.ltb Nat.leb argv_at nth Nat.eqb negb orb].
  rewrite !String.eqb_refl. reflexivity.
Qed.

(** C4 (as amended).  Once the session and the clients are built, for
    every listing, [ingest_healthlake] submits one import request per
    listed key, unfiltered and in the order of the listing, up to and
    including the first key whose call raises an exception other than
    [ClientError]; that exception ends the loop.  So it submits exactly
    one request per key as long as every call returns or raises
    [ClientError].  A response without 'Contents' gives no request and the
    line 'No objects found in the S3 bucket.'. *)
Theorem ingest_submits_listed_keys (s : σ) :
  outcome built s = Ret tt ->
  let s0 := final built s in
  let s1 := snd (list_objects_v2 bucket_name s0) in
  (forall keys,
      fst (list_objects_v2 bucket_name s0) = inl (Some keys) ->
      import_requests (trace ingest s)
      = map request (submitted_keys bucket_name datastore_id data_access_role_arn keys s1)
      /\ (exists rest,
            keys = submitted_keys bucket_name datastore_id data_access_role_arn keys s1
                   ++ rest)
      /\ ((forall req s2,
              match fst (start_fhir_import_job req s2) with
              | inl _ => True
              | inr e => is_client_error e = true
              end) ->
          import_requests (trace ingest s) = map request keys))
  /\ (fst (list_objects_v2 bucket_name s0) = inl None ->
      import_requests (trace ingest s) = []
      /\ printed (trace ingest s) = ["No objects found in the S3 bucket."]
      /\ outcome ingest s = Ret tt).
Proof.
  intros Hbuilt.
  destruct (ingest_cases s) as [(_ & Ho & Ht & _)|(e & Hraise & _)];
    [|rewrite Hraise in Hbuilt; discriminate Hbuilt].
  rewrite Ho, Ht.
  exact (ingest_listed_submits bucket_name datastore_id data_access_role_arn
           (final built s)).
Qed.

(** C3 (as amended).  With a well-formed [ingest-healthlake] command line,
    once the session and the clients are built the process ends with
    status 0 in every case.  When listing the bucket fails the error is
    printed, no import request is made, and the status is still 0;
    failures of single import calls do not change it either.  The status
    is 1 only when the session or a client cannot be built: that exception
    is raised outside the [try] and ends the process before any call. *)
Theorem ingest_exit_status (script : string) (s : σ) :
  let argv := [script; "ingest-healthlake"; "--bucket-name"; bucket_name;
               "--datastore-id"; datastore_id; "--darole-arn"; data_access_role_arn] in
  (outcome built s = Ret tt ->
   process_exit_code h argv s = 0%Z
   /\ (forall e, fst (list_objects_v2 bucket_name (final built s)) = inr e ->
       trace (main h argv) s
       = [ListObjectsV2 bucket_name; Print (ingest_error_line e)]))
  /\ (forall e, outcome built s = Raise e ->
      process_exit_code h argv s = 1%Z /\ trace (main h argv) s = []).
Proof.
  cbn zeta. unfold process_exit_code. rewrite main_ingest.
  destruct (ingest_cases s) as [(Hc & Ho & Ht & _)|(e & Hc & Ho & Ht & _)];
    rewrite Ho, Ht, Hc.
  - split; [intros _|intros e He; discriminate He]. split.
    + now rewrite ingest_returns.
    + intros e He.
      destruct (list_objects_v2 bucket_name (final built s)) as [r s1] eqn:H.
      cbn [fst] in He. subst r. unfold trace.
      now rewrite (ingest_listing_failed bucket_name datastore_id data_access_role_arn
                     e _ s1 H).
  - split; [intros He; discriminate He|]. intros e' _. now split.
Qed.

(** X16.  An ingest whose session and clients were built lists the bucket
    once, first, and every further client call is the import request of an
    object; it never checks, uploads or describes anything.  When the
    session or a client cannot be built, the exception ends the ingest
    before any call is made or any line printed. *)
Theorem ingest_calls (s : σ) :
  (outcome built s = Ret tt ->
   remote_calls (trace ingest s)
   = ListObjectsV2 bucket_name
       :: map StartFHIRImportJob (import_requests (trace ingest s)))
  /\ (forall e, outcome built s = Raise e ->
      trace ingest s = [] /\ outcome ingest s = Raise e).
Proof.
  destruct (ingest_cases s) as [(Hc & _ & Ht & _)|(e & Hc & Ho & Ht & _)].
  - split; [|intros e He; rewrite He in Hc; discriminate Hc].
    intros _. rewrite Ht. apply ingest_listed_calls.
  - split; [intros He; rewrite He in Hc; discriminate Hc|].
    intros e' He. rewrite He in Hc. injection Hc as ->. now split.
Qed.

Lemma ingest_request_of_listed_key (s : σ) (req : ImportJobRequest) :
  In req (import_requests (trace ingest s)) -> exists key, req = request key.
Proof.
  intros Hin.
  destruct (ingest_cases s) as [(_ & _ & Ht & _)|(e & _ & _ & Ht & _)];
    rewrite Ht in Hin; [|destruct Hin].
  destruct (ingest_listed_requests bucket_name datastore_id data_access_role_arn
              _ req Hin) as (keys & key & _ & _ & -> & _).
  now exists key.
Qed.

(** X18.  An import request is only ever made for an object of the
    listing: when a client cannot be built, the listing fails or has no
    'Contents', no request is made, and otherwise each request names a
    listed key, whose object in the listed bucket is its input. *)
Theorem ingest_requests_only_listed (s : σ) (req : ImportJobRequest) :
  In req (import_requests (trace ingest s)) ->
  exists keys key,
    fst (list_objects_v2 bucket_name (final built s)) = inl (Some keys)
    /\ In key keys
    /\ req = request key
    /\ InputS3Uri req = "s3://" +:+ bucket_name +:+ "/" +:+ key.
Proof.
  intros Hin.
  destruct (ingest_cases s) as [(_ & _ & Ht & _)|(e & _ & _ & Ht & _)];
    rewrite Ht in Hin; [|destruct Hin].
  exact (ingest_listed_requests bucket_name datastore_id data_access_role_arn _ req Hin).
Qed.

End Ingest.

(** C6.  The job name of an import request is a function of the object key
    alone: 'Ingest-' followed by the first 55 characters of the key (the
    whole key when it is shorter).  It has at most 62, hence at most 64
    characters, and every request of a run carries the job name of its
    key. *)
Theorem job_name_bounded {σ : Type} `{B3 : Boto3 σ} `{S3 : S3Client σ}
    `{HL : HealthLakeClient σ} (h : host)
    (bucket_name datastore_id data_access_role_arn object_name : string) :
  JobName (import_request bucket_name datastore_id data_access_role_arn object_name)
  = job_name object_name
  /\ job_name object_name = "Ingest-" +:+ Py.slice_to 55 object_name
  /\ String.prefix (Py.slice_to 55 object_name) object_name = true
  /\ String.length (job_name object_name)
     = (7 + Nat.min 55 (String.length object_name))%nat
  /\ (String.length (job_name object_name) <= 64)%nat
  /\ (forall bucket' datastore' arn',
        JobName (import_request bucket' datastore' arn' object_name)
        = JobName (import_request bucket_name datastore_id data_access_role_arn
                     object_name))
  /\ (forall (s : σ) req,
        In req (import_requests
                  (trace (ingest_healthlake h bucket_name datastore_id
                            data_access_role_arn) s)) ->
        exists key,
          req = import_request bucket_name datastore_id data_access_role_arn key
          /\ JobName req = job_name key
          /\ (String.length (JobName req) <= 64)%nat).
Proof.
  assert (forall key, String.length (job_name key)
                      = (7 + Nat.min 55 (String.length key))%nat) as Hlen.
  { intros key. unfold job_name. now rewrite string_length_append, slice_to_length. }
  split; [reflexivity|]. split; [reflexivity|]. split; [apply slice_to_prefix|].
  split; [apply Hlen|]. split; [rewrite Hlen; lia|]. split; [reflexivity|].
  intros s req Hin.
  destruct (ingest_request_of_listed_key h bucket_name datastore_id
              data_access_role_arn s req Hin) as (key & ->).
  exists key. split; [reflexivity|]. split; [reflexivity|].
  cbn [JobName import_request]. rewrite Hlen. lia.
Qed.

(** X17.  Once the session and the clients are built, an ingest in which
    every import call returns or is refused by the service with a
    [ClientError] goes through the whole listing: one request per listed
    key, in order, and for each object the line that announces it followed
    by the line with its job id or with the refusal. *)
Theorem ingest_reports_each_object (h : host)
    (bucket_name datastore_id data_access_role_arn : string)
    (w : service) (keys : list string) :
  outcome (clients h ["s3"; "healthlake"]) w = Ret tt ->
  listing w bucket_name = inl (Some keys) ->
  (forall key, In key keys ->
     match import_result w
             (import_request bucket_name datastore_id data_access_role_arn key) with
     | inl _ => True
     | inr e => is_client_error e = true
     end) ->
  let run := ingest_healthlake h bucket_name datastore_id data_access_role_arn in
  outcome run w = Ret tt
  /\ import_requests (trace run w)
     = map (import_request bucket_name datastore_id data_access_role_arn) keys
  /\ printed (trace run w)
     = flat_map
         (fun key =>
            ["Ingesting " +:+ s3_uri bucket_name key +:+ " into AWS HealthLake...";
             ingest_report (s3_uri bucket_name key)
               (import_result w
                  (import_request bucket_name datastore_id data_access_role_arn key))])
         keys.
Proof.
  intros Hbuilt Hlist Hok. cbn zeta.
  destruct (ingest_cases h bucket_name datastore_id data_access_role_arn w)
    as [(_ & Ho & Ht & _)|(e & Hraise & _)];
    [|rewrite Hraise in Hbuilt; discriminate Hbuilt].
  rewrite Ho, Ht.
  destruct (service_clients h ["s3"; "healthlake"] w) as [-> _].
  exact (ingest_listed_reports bucket_name datastore_id data_access_role_arn
           w keys Hlist Hok).
Qed.

(** Two listed keys on a healthy service: two requests, in order. *)
Lemma ingest_submits_listed_keys_witness :
  import_requests
    (trace (ingest_healthlake (posix_host all_set) "bkt" "ds1"
              "arn:aws:iam::123456789012:role/hl")
       (healthy ∅ (Some ["k1.json"; "k2.json"])))
  = map (import_request "bkt" "ds1" "arn:aws:iam::123456789012:role/hl")
      ["k1.json"; "k2.json"].
Proof.
  destruct (ingest_submits_listed_keys (posix_host all_set) "bkt" "ds1"
              "arn:aws:iam::123456789012:role/hl"
              (healthy ∅ (Some ["k1.json"; "k2.json"])))
    as [H _]; [vm_compute; reflexivity|].
  destruct (H ["k1.json"; "k2.json"] eq_refl) as (Hreq & _ & _).
  exact Hreq.
Defined.

(** Two listed keys, the first import call cannot reach the service: the
    outer handler ends the loop and 'k2.json' gets no request. *)
Lemma ingest_submits_listed_keys_counterexample :
  outcome (clients (posix_host all_set) ["s3"; "healthlake"]) unreachable_import
  = Ret tt
  /\ fst (list_objects_v2 "bkt" unreachable_import)
     = inl (Some ["k1.json"; "k2.json"])
  /\ import_requests
       (trace (ingest_healthlake (posix_host all_set) "bkt" "ds1"
                 "arn:aws:iam::123456789012:role/hl")
          unreachable_import)
     = [import_request "bkt" "ds1" "arn:aws:iam::123456789012:role/hl" "k1.json"]
  /\ import_requests
       (trace (ingest_healthlake (posix_host all_set) "bkt" "ds1"
                 "arn:aws:iam::123456789012:role/hl")
          unreachable_import)
     <> map (import_request "bkt" "ds1" "arn:aws:iam::123456789012:role/hl")
          ["k1.json"; "k2.json"].
Proof.
  split; [vm_compute; reflexivity|]. split; [reflexivity|].
  split; [vm_compute; reflexivity|].
  vm_compute. intros H. discriminate H.
Qed.

(** The listing is refused: one line is printed and nothing else is done. *)
Lemma ingest_exit_status_witness :
  trace (main (posix_host all_set) ingest_argv) unlistable
  = [ListObjectsV2 "bkt"; Print (ingest_error_line access_denied)].
Proof.
  destruct (ingest_exit_status (posix_host all_set) "bkt" "ds1"
              "arn:aws:iam::123456789012:role/hl" "./hiosctl.py" unlistable)
    as [H _].
  destruct H as [_ H]; [vm_compute; reflexivity|].
  apply H. reflexivity.
Defined.

(** The listing is refused and the process still ends with status 0. *)
Lemma ingest_exit_status_counterexample :
  outcome (clients (posix_host all_set) ["s3"; "healthlake"]) unlistable = Ret tt
  /\ fst (list_objects_v2 "bkt" unlistable) = inr access_denied
  /\ process_exit_code (posix_host all_set) ingest_argv unlistable = 0%Z
  /\ ~ (process_exit_code (posix_host all_set) ingest_argv unlistable <> 0%Z).
Proof.
  split; [vm_compute; reflexivity|]. split; [reflexivity|].
  split; [vm_compute; reflexivity|].
  intros H. apply H. vm_compute. reflexivity.
Qed.

(** Without a region the HealthLake client cannot be built: the ingest
    ends with the exception and status 1 before it lists the bucket. *)
Example ingest_without_region :
  main (posix_host keys_only) ingest_argv (regional (Some ["k1.json"]))
  = (Raise (OtherException "You must specify a region."),
     regional (Some ["k1.json"]), [])
  /\ process_exit_code (posix_host keys_only) ingest_argv (regional (Some ["k1.json"]))
     = 1%Z.
Proof. split; vm_compute; reflexivity. Qed.

(** A run over two keys: each request carries the job name of its key. *)
Lemma job_name_bounded_witness :
  exists key,
    import_request "bkt" "ds1" "arn" "k1.json" = import_request "bkt" "ds1" "arn" key
    /\ JobName (import_request "bkt" "ds1" "arn" "k1.json") = job_name key
    /\ (String.length (JobName (import_request "bkt" "ds1" "arn" "k1.json")) <= 64)%nat.
Proof.
  destruct (job_name_bounded (σ := service) (posix_host all_set)
              "bkt" "ds1" "arn" "k1.json")
    as (_ & _ & _ & _ & _ & _ & H).
  apply (H (healthy ∅ (Some ["k1.json"; "k2.json"]))).
  vm_compute. now left.
Defined.

(** A listing of two keys on a healthy service, and the same ingest where
    no HealthLake client can be built. *)
Lemma ingest_calls_witness :
  remote_calls
    (trace (ingest_healthlake (posix_host all_set) "bkt" "ds1" "arn")
       (healthy ∅ (Some ["k1.json"; "k2.json"])))
  = [ListObjectsV2 "bkt";
     StartFHIRImportJob (import_request "bkt" "ds1" "arn" "k1.json");
     StartFHIRImportJob (import_request "bkt" "ds1" "arn" "k2.json")]
  /\ trace (ingest_healthlake (posix_host keys_only) "bkt" "ds1" "arn")
       (regional (Some ["k1.json"; "k2.json"])) = [].
Proof.
  split.
  - destruct (ingest_calls (posix_host all_set) "bkt" "ds1" "arn"
                (healthy ∅ (Some ["k1.json"; "k2.json"]))) as [H _].
    rewrite H; vm_compute; reflexivity.
  - destruct (ingest_calls (posix_host keys_only) "bkt" "ds1" "arn"
                (regional (Some ["k1.json"; "k2.json"]))) as [_ H].
    destruct (H (OtherException "You must specify a region.")) as [Ht _];
      [vm_compute; reflexivity|exact Ht].
Defined.

(** Two listed objects, both refused by the service: both are submitted
    and both refusals are printed. *)
Lemma ingest_reports_each_object_witness :
  printed (trace (ingest_healthlake (posix_host all_set) "bkt" "ds1"
                    "arn:aws:iam::123456789012:role/hl")
             import_refused)
  = ["Ingesting s3://bkt/k1.json into AWS HealthLake...";
     "Failed to ingest s3://bkt/k1.json: Invalid role";
     "Ingesting s3://bkt/k2.json into AWS HealthLake...";
     "Failed to ingest s3://bkt/k2.json: Invalid role"].
Proof.
  destruct (ingest_reports_each_object (posix_host all_set) "bkt" "ds1"
              "arn:aws:iam::123456789012:role/hl"
              import_refused ["k1.json"; "k2.json"]) as (_ & _ & H);
    [vm_compute; reflexivity|reflexivity|intros key _; reflexivity|exact H].
Defined.

Lemma ingest_requests_only_listed_witness :
  exists keys key,
    fst (list_objects_v2 "bkt"
           (final (clients (posix_host all_set) ["s3"; "healthlake"])
              (healthy ∅ (Some ["k1.json"; "k2.json"]))))
    = inl (Some keys)
    /\ In key keys
    /\ import_request "bkt" "ds1" "arn" "k2.json" = import_request "bkt" "ds1" "arn" key
    /\ InputS3Uri (import_request "bkt" "ds1" "arn" "k2.json")
       = "s3://" +:+ "bkt" +:+ "/" +:+ key.
Proof.
  apply (ingest_requests_only_listed (posix_host all_set) "bkt" "ds1" "arn"
           (healthy ∅ (Some ["k1.json"; "k2.json"]))).
  vm_compute. tauto.
Defined.

(** ** The doctor *)

Section Doctor.
Context {σ : Type} `{B3 : Boto3 σ} `{S3 : S3Client σ} `{HL : HealthLakeClient σ}.
Variables (h : host) (script bucket_name datastore_id : string).

Local Abbreviation argv :=
  [script; "doctor"; "--bucket-name"; bucket_name; "--datastore-id"; datastore_id].
Local Abbreviation built := (clients (σ := σ) h ["s3"; "healthlake"]).
Local Abbreviation checks := (doctor_checks (σ := σ) bucket_name datastore_id).
Local Abbreviation all_are_set := (Print "All required environment variables are set.").

Lemma main_doctor : main (σ := σ) h argv = doctor h bucket_name datastore_id.
Proof.
  unfold main. cbn [length Nat.ltb Nat.leb argv_at nth Nat.eqb negb orb].
  rewrite !String.eqb_refl. reflexivity.
Qed.

Lemma doctor_missing (s : σ) :
  missing_env_vars h <> [] ->
  doctor h bucket_name datastore_id s
  = (Exit 1, s,
     [Print ("Missing required environment variables: "
               +:+ Py.join ", " (missing_env_vars h))]).
Proof.
  intros Hm. unfold doctor. destruct (missing_env_vars h) as [|var rest]; [congruence|].
  reflexivity.
Qed.

(** [doctor] with every variable set, by the construction of the clients. *)
Lemma doctor_cases (s : σ) :
  missing_env_vars h = [] ->
  (outcome built s = Ret tt
   /\ outcome (doctor h bucket_name datastore_id) s = outcome checks (final built s)
   /\ trace (doctor h bucket_name datastore_id) s
      = all_are_set :: trace checks (final built s)
   /\ final (doctor h bucket_name datastore_id) s = final checks (final built s))
  \/ (exists e,
        outcome built s = Raise e
        /\ outcome (doctor h bucket_name datastore_id) s = Raise e
        /\ trace (doctor h bucket_name datastore_id) s = [all_are_set]
        /\ final (doctor h bucket_name datastore_id) s = final built s).
Proof.
  intros Hm. unfold doctor. rewrite Hm.
  rewrite bind_outcome, bind_trace, bind_final.
  change (outcome (print "All required environment variables are set.") s)
    with (@Ret unit tt).
  change (final (print "All required environment variables are set.") s) with s.
  change (trace (print "All required environment variables are set.") s)
    with [all_are_set].
  destruct (after_clients h ["s3"; "healthlake"] checks s)
    as [(Hc & Ho & Ht & Hf)|(e & Hc & Ho & Ht & Hf)].
  - left. now rewrite Ho, Ht, Hf.
  - right. exists e. now rewrite Ho, Ht, Hf.
Qed.

(** The two checks when the bucket check fails. *)
Lemma doctor_checks_bucket_failed (e : exn) (s s1 : σ) :
  head_bucket bucket_name s = (inr e, s1) ->
  checks s
  = if is_client_error e
    then (Exit 1, s1,
          [HeadBucket bucket_name;
           Print ("Could not access S3 bucket '" +:+ bucket_name +:+ "': " +:+ str_exn e)])
    else (Raise e, s1, [HeadBucket bucket_name]).
Proof.
  intros Hb. unfold doctor_checks, try_except, bind, call, print, sys_exit.
  rewrite Hb. now destruct e.
Qed.

(** The two checks once the bucket check has passed, by the answer of the
    datastore check. *)
Lemma doctor_checks_datastore (s s1 : σ) :
  head_bucket bucket_name s = (inl tt, s1) ->
  let checked :=
    [HeadBucket bucket_name;
     Print ("S3 bucket '" +:+ bucket_name +:+ "' exists and is accessible.");
     DescribeFHIRDatastore datastore_id] in
  checks s
  = match describe_fhir_datastore datastore_id s1 with
    | (inl _, s2) =>
        (Ret tt, s2,
         checked ++ [Print ("HealthLake Data Store ID '" +:+ datastore_id
                              +:+ "' is valid and accessible.")])
    | (inr e, s2) =>
        if is_client_error e
        then (Exit 1, s2,
              checked ++ [Print ("Could not access HealthLake Data Store ID '"
                                   +:+ datastore_id +:+ "': " +:+ str_exn e)])
        else (Raise e, s2, checked)
    end.
Proof.
  intros Hb. cbn zeta. unfold doctor_checks, try_except, bind, call, print, sys_exit.
  rewrite Hb.
  destruct (describe_fhir_datastore datastore_id s1) as [[[]|e] s2];
    [reflexivity|now destruct e].
Qed.

(** C7 (as amended).  The variables [doctor] reports as missing are
    exactly the required ones that are unset.  When there is one, the
    process prints them, ends with status 1 and has made no remote call.
    When there is none, it prints the confirmation and builds the session
    and the two clients: once they are built it goes on to the bucket
    check, and when one cannot be built the exception ends the process
    with status 1 before any remote check. *)
Theorem doctor_aborts_on_missing_credentials (s : σ) :
  (forall var,
      In var (missing_env_vars h) <->
      In var required_env_vars /\ os_getenv h var = None)
  /\ (missing_env_vars h <> [] ->
      process_exit_code h argv s = 1%Z
      /\ outcome (main h argv) s = Exit 1
      /\ trace (main h argv) s
         = [Print ("Missing required environment variables: "
                     +:+ Py.join ", " (missing_env_vars h))]
      /\ remote_calls (trace (main h argv) s) = []
      /\ final (main h argv) s = s)
  /\ (missing_env_vars h = [] ->
      outcome built s = Ret tt ->
      exists rest,
        trace (main h argv) s = all_are_set :: HeadBucket bucket_name :: rest)
  /\ (missing_env_vars h = [] ->
      forall e, outcome built s = Raise e ->
      trace (main h argv) s = [all_are_set]
      /\ outcome (main h argv) s = Raise e
      /\ process_exit_code h argv s = 1%Z).
Proof.
  split; [apply missing_env_vars_spec|].
  unfold process_exit_code. rewrite main_doctor. split; [|split].
  - intros Hm. unfold outcome, final, trace. rewrite (doctor_missing s Hm). cbn.
    repeat split; reflexivity.
  - intros Hm Hbuilt.
    destruct (doctor_cases s Hm) as [(_ & _ & Ht & _)|(e & Hraise & _)];
      [|rewrite Hraise in Hbuilt; discriminate Hbuilt].
    rewrite Ht. unfold trace.
    destruct (head_bucket bucket_name (final built s)) as [[[]|e] s1] eqn:Hb.
    + rewrite (doctor_checks_datastore _ s1 Hb). cbn zeta.
      destruct (describe_fhir_datastore datastore_id s1) as [[u|e] s2];
        [|destruct (is_client_error e)]; eexists; reflexivity.
    + rewrite (doctor_checks_bucket_failed e _ s1 Hb).
      destruct (is_client_error e); eexists; reflexivity.
  - intros Hm e Hraise.
    destruct (doctor_cases s Hm) as [(Hbuilt & _)|(e' & Hraise' & Ho & Ht & _)];
      [rewrite Hraise in Hbuilt; discriminate Hbuilt|].
    rewrite Hraise in Hraise'. injection Hraise' as <-.
    rewrite Ho, Ht. now split.
Qed.

(** C1 (as amended).  With the three variables set and the session and
    the clients built, a bucket check that fails ends [doctor] at once
    with status 1, and the datastore check is not attempted.  When the
    failure is a [ClientError] it is printed and the process exits with
    code 1; any other exception is not caught: nothing is printed about it
    and it ends the process. *)
Theorem doctor_stops_at_bucket_failure (e : exn) (s : σ) :
  missing_env_vars h = [] ->
  outcome built s = Ret tt ->
  fst (head_bucket bucket_name (final built s)) = inr e ->
  process_exit_code h argv s = 1%Z
  /\ remote_calls (trace (main h argv) s) = [HeadBucket bucket_name]
  /\ ~ In (DescribeFHIRDatastore datastore_id) (trace (main h argv) s)
  /\ (is_client_error e = true ->
      outcome (main h argv) s = Exit 1
      /\ printed (trace (main h argv) s)
         = ["All required environment variables are set.";
            "Could not access S3 bucket '" +:+ bucket_name +:+ "': " +:+ str_exn e])
  /\ (is_client_error e = false ->
      outcome (main h argv) s = Raise e
      /\ printed (trace (main h argv) s)
         = ["All required environment variables are set."]).
Proof.
  intros Hm Hbuilt He.
  destruct (head_bucket bucket_name (final built s)) as [r s1] eqn:Hb.
  cbn [fst] in He. subst r.
  unfold process_exit_code. rewrite main_doctor.
  destruct (doctor_cases s Hm) as [(_ & Ho & Ht & _)|(e' & Hraise & _)];
    [|rewrite Hraise in Hbuilt; discriminate Hbuilt].
  rewrite Ho, Ht. unfold outcome, trace.
  rewrite (doctor_checks_bucket_failed e _ s1 Hb).
  destruct (is_client_error e); cbn.
  - split; [reflexivity|]. split; [reflexivity|]. split; [|split; [now split|discriminate]].
    intros [H|[H|[H|[]]]]; discriminate H.
  - split; [reflexivity|]. split; [reflexivity|]. split; [|split; [discriminate|now split]].
    intros [H|[H|[]]]; discriminate H.
Qed.

(** X4.  [doctor] ends with status 0 exactly when no required variable
    is missing, the session and the clients are built, the bucket check
    returns and the datastore check, made next, returns as well; it then
    has printed its three confirmations. *)
Theorem doctor_passes_iff (s : σ) :
  (process_exit_code h argv s = 0%Z <->
   missing_env_vars h = []
   /\ outcome built s = Ret tt
   /\ (exists u, fst (head_bucket bucket_name (final built s)) = inl u)
   /\ (exists u, fst (describe_fhir_datastore datastore_id
                        (snd (head_bucket bucket_name (final built s)))) = inl u))
  /\ (process_exit_code h argv s = 0%Z ->
      printed (trace (main h argv) s)
      = ["All required environment variables are set.";
         "S3 bucket '" +:+ bucket_name +:+ "' exists and is accessible.";
         "HealthLake Data Store ID '" +:+ datastore_id +:+ "' is valid and accessible."]).
Proof.
  unfold process_exit_code. rewrite main_doctor.
  destruct (missing_env_vars h) as [|v vs] eqn:Hm.
  - destruct (doctor_cases s Hm) as [(Hc & Ho & Ht & _)|(e & Hc & Ho & Ht & _)];
      rewrite Ho, Ht, Hc.
    + unfold outcome, trace.
      destruct (head_bucket bucket_name (final built s)) as [[[]|e] s1] eqn:Hb;
        cbn [fst snd].
      * rewrite (doctor_checks_datastore _ s1 Hb). cbn zeta.
        destruct (describe_fhir_datastore datastore_id s1) as [[u|e] s2]; cbn [fst snd].
        -- split; [|reflexivity]. split; [intros _|reflexivity].
           split; [reflexivity|]. split; [reflexivity|]. split; eauto.
        -- destruct (is_client_error e); cbn [fst snd exit_code];
             (split; [split; [discriminate
                             |intros (_ & _ & _ & u & Hu); discriminate Hu]
                     |discriminate]).
      * rewrite (doctor_checks_bucket_failed e _ s1 Hb).
        destruct (is_client_error e); cbn [fst snd exit_code];
          (split; [split; [discriminate|intros (_ & _ & (u & Hu) & _); discriminate Hu]
                  |discriminate]).
    + cbn [exit_code].
      split; [split; [discriminate|intros (_ & Habs & _); discriminate Habs]
             |discriminate].
  - unfold outcome, trace.
    rewrite doctor_missing by (rewrite Hm; discriminate). cbn [fst snd exit_code].
    split; [split; [discriminate|intros (Habs & _); discriminate Habs]|discriminate].
Qed.

(** X5.  [doctor] only inspects: its client calls are the bucket check
    and then the datastore check, each at most once; it never lists,
    uploads or starts an import. *)
Theorem doctor_only_inspects (s : σ) :
  remote_calls (trace (main h argv) s) = []
  \/ remote_calls (trace (main h argv) s) = [HeadBucket bucket_name]
  \/ remote_calls (trace (main h argv) s)
     = [HeadBucket bucket_name; DescribeFHIRDatastore datastore_id].
Proof.
  rewrite main_doctor.
  destruct (missing_env_vars h) as [|v vs] eqn:Hm.
  - destruct (doctor_cases s Hm) as [(_ & _ & Ht & _)|(e & _ & _ & Ht & _)];
      rewrite Ht; [|now left].
    unfold trace.
    destruct (head_bucket bucket_name (final built s)) as [[[]|e] s1] eqn:Hb.
    + rewrite (doctor_checks_datastore _ s1 Hb). cbn zeta.
      right. right.
      destruct (describe_fhir_datastore datastore_id s1) as [[u|e] s2];
        [reflexivity|]. now destruct (is_client_error e).
    + rewrite (doctor_checks_bucket_failed e _ s1 Hb).
      right. left. now destruct (is_client_error e).
  - left. unfold trace. now rewrite doctor_missing by (rewrite Hm; discriminate).
Qed.

(** X6.  When the session and the clients are built, the bucket check has
    passed and the datastore check fails, both checks have been made and
    the process ends with status 1; a [ClientError] is printed after the
    two earlier confirmations. *)
Theorem doctor_datastore_failure (e : exn) (s : σ) :
  missing_env_vars h = [] ->
  outcome built s = Ret tt ->
  fst (head_bucket bucket_name (final built s)) = inl tt ->
  fst (describe_fhir_datastore datastore_id
         (snd (head_bucket bucket_name (final built s)))) = inr e ->
  process_exit_code h argv s = 1%Z
  /\ remote_calls (trace (main h argv) s)
     = [HeadBucket bucket_name; DescribeFHIRDatastore datastore_id]
  /\ (is_client_error e = true ->
      outcome (main h argv) s = Exit 1
      /\ printed (trace (main h argv) s)
         = ["All required environment variables are set.";
            "S3 bucket '" +:+ bucket_name +:+ "' exists and is accessible.";
            "Could not access HealthLake Data Store ID '" +:+ datastore_id
              +:+ "': " +:+ str_exn e]).
Proof.
  intros Hm Hbuilt Hb Hd.
  destruct (head_bucket bucket_name (final built s)) as [r s1] eqn:Hhead.
  cbn [fst snd] in Hb, Hd. subst r.
  unfold process_exit_code. rewrite main_doctor.
  destruct (doctor_cases s Hm) as [(_ & Ho & Ht & _)|(e' & Hraise & _)];
    [|rewrite Hraise in Hbuilt; discriminate Hbuilt].
  rewrite Ho, Ht. unfold outcome, trace.
  rewrite (doctor_checks_datastore _ s1 Hhead). cbn zeta.
  destruct (describe_fhir_datastore datastore_id s1) as [r s2].
  cbn [fst] in Hd. subst r.
  destruct (is_client_error e); cbn; [auto|].
  split; [reflexivity|]. split; [reflexivity|discriminate].
Qed.

End Doctor.

(** Only the region is set: the two keys are reported, nothing is called. *)
Lemma doctor_aborts_on_missing_credentials_witness :
  trace (main (posix_host region_only) doctor_argv) (healthy ∅ None)
  = [Print "Missing required environment variables: AWS_ACCESS_KEY_ID, AWS_SECRET_ACCESS_KEY"]
  /\ process_exit_code (posix_host region_only) doctor_argv (healthy ∅ None) = 1%Z
  /\ remote_calls (trace (main (posix_host region_only) doctor_argv) (healthy ∅ None)) = [].
Proof.
  destruct (doctor_aborts_on_missing_credentials (posix_host region_only)
              "./hiosctl.py" "bkt" "ds1" (healthy ∅ None)) as (_ & H & _).
  destruct H as (Hcode & _ & Htrace & Hremote & _).
  - vm_compute. discriminate.
  - split; [exact Htrace|]. split; [exact Hcode|exact Hremote].
Defined.

(** The three variables are set, the region to the empty string: nothing
    is reported missing, yet no client can be built and the process ends
    with status 1 without a remote check. *)
Lemma doctor_aborts_on_missing_credentials_counterexample :
  missing_env_vars (posix_host empty_region) = []
  /\ main (posix_host empty_region) doctor_argv (regional None)
     = (Raise (OtherException "Invalid endpoint: https://s3..amazonaws.com"),
        regional None,
        [Print "All required environment variables are set."])
  /\ remote_calls (trace (main (posix_host empty_region) doctor_argv) (regional None))
     = []
  /\ process_exit_code (posix_host empty_region) doctor_argv (regional None) = 1%Z
  /\ ~ In (HeadBucket "bkt")
         (trace (main (posix_host empty_region) doctor_argv) (regional None)).
Proof.
  split; [vm_compute; reflexivity|]. split; [vm_compute; reflexivity|].
  split; [vm_compute; reflexivity|]. split; [vm_compute; reflexivity|].
  intros H. vm_compute in H. destruct H as [H|[]]. discriminate H.
Qed.

(** The bucket check is refused with code 403. *)
Lemma doctor_stops_at_bucket_failure_witness :
  process_exit_code (posix_host all_set) doctor_argv bucket_forbidden = 1%Z
  /\ remote_calls (trace (main (posix_host all_set) doctor_argv) bucket_forbidden)
     = [HeadBucket "bkt"]
  /\ printed (trace (main (posix_host all_set) doctor_argv) bucket_forbidden)
     = ["All required environment variables are set.";
        "Could not access S3 bucket 'bkt': " +:+ str_exn access_denied].
Proof.
  destruct (doctor_stops_at_bucket_failure (posix_host all_set) "./hiosctl.py" "bkt" "ds1"
              access_denied bucket_forbidden) as (Hcode & Hremote & _ & Hprinted & _).
  - vm_compute. reflexivity.
  - vm_compute. reflexivity.
  - reflexivity.
  - split; [exact Hcode|]. split; [exact Hremote|]. now apply Hprinted.
Defined.

(** Credentials set, the bucket refused, the datastore reachable: the
    datastore check is never made. *)
Lemma doctor_stops_at_bucket_failure_counterexample :
  missing_env_vars (posix_host all_set) = []
  /\ outcome (clients (posix_host all_set) ["s3"; "healthlake"]) bucket_forbidden
     = Ret tt
  /\ fst (head_bucket "bkt" bucket_forbidden) = inr access_denied
  /\ fst (describe_fhir_datastore "ds1" bucket_forbidden) = inl tt
  /\ ~ In (DescribeFHIRDatastore "ds1")
         (trace (main (posix_host all_set) doctor_argv) bucket_forbidden).
Proof.
  split; [vm_compute; reflexivity|]. split; [vm_compute; reflexivity|].
  split; [reflexivity|]. split; [reflexivity|].
  intros H. vm_compute in H. destruct H as [H|[H|[H|[]]]]; discriminate H.
Qed.

(** Everything set and reachable: status 0 and the three confirmations. *)
Lemma doctor_passes_iff_witness :
  printed (trace (main (posix_host all_set) doctor_argv) (healthy ∅ None))
  = ["All required environment variables are set.";
     "S3 bucket 'bkt' exists and is accessible.";
     "HealthLake Data Store ID 'ds1' is valid and accessible."].
Proof.
  destruct (doctor_passes_iff (posix_host all_set) "./hiosctl.py" "bkt" "ds1"
              (healthy ∅ None)) as [_ H].
  apply H. vm_compute. reflexivity.
Defined.

(** The datastore is refused with code 403 after the bucket was reached. *)
Lemma doctor_datastore_failure_witness :
  process_exit_code (posix_host all_set) doctor_argv datastore_forbidden = 1%Z
  /\ remote_calls (trace (main (posix_host all_set) doctor_argv) datastore_forbidden)
     = [HeadBucket "bkt"; DescribeFHIRDatastore "ds1"].
Proof.
  destruct (doctor_datastore_failure (posix_host all_set) "./hiosctl.py" "bkt" "ds1"
              access_denied datastore_forbidden) as (Hcode & Hrem & _).
  - vm_compute. reflexivity.
  - vm_compute. reflexivity.
  - reflexivity.
  - reflexivity.
  - split; [exact Hcode|exact Hrem].
Defined.

(** ** The exit status *)

Section Status.
Context {σ : Type} `{B3 : Boto3 σ} `{S3 : S3Client σ} `{HL : HealthLakeClient σ}.

(** X3.  Whatever the command line, the host and the services do, the
    process ends with status 0 or 1. *)
Theorem exit_status_is_0_or_1 (h : host) (argv : list string) (s : σ) :
  process_exit_code h argv s = 0%Z \/ process_exit_code h argv s = 1%Z.
Proof.
  destruct (main_shape h argv s)
    as [(t & Hrun & _)|[(a & b & p & ->)|[(a & b & d & r & ->)|(a & b & d & ->)]]].
  - right. unfold process_exit_code, outcome. now rewrite Hrun.
  - destruct (directory_at h p) as [entries|] eqn:Hdir.
    + unfold process_exit_code. rewrite (main_store h b p entries a Hdir).
      destruct (store_s3_cases h b p entries s) as [(_ & Ho & _)|(e & _ & Ho & _)];
        rewrite Ho; [|now right].
      pose proof (store_bundles_never_exits (join_str h) (os_sep h) b p entries
                    (final (clients h ["s3"]) s)) as Hne.
      destruct (outcome (store_bundles (join_str h) (os_sep h) b p entries)
                  (final (clients h ["s3"]) s)) as [u|e|c];
        [now left|now right|now destruct (Hne c)].
    + right. unfold process_exit_code, outcome, main.
      cbn [length Nat.ltb Nat.leb argv_at nth Nat.eqb negb orb].
      rewrite !String.eqb_refl. cbn [negb orb]. now rewrite Hdir.
  - unfold process_exit_code. rewrite main_ingest.
    destruct (ingest_cases h b d r s) as [(_ & Ho & _)|(e & _ & Ho & _)];
      rewrite Ho; [left|now right].
    now rewrite ingest_returns.
  - unfold process_exit_code. rewrite main_doctor.
    destruct (missing_env_vars h) as [|v vs] eqn:Hm.
    + destruct (doctor_cases h b d s Hm) as [(_ & Ho & _)|(e & _ & Ho & _)];
        rewrite Ho; [|now right].
      unfold outcome.
      destruct (head_bucket b (final (clients h ["s3"; "healthlake"]) s))
        as [[[]|e] s1] eqn:Hb.
      * rewrite (doctor_checks_datastore b d _ s1 Hb). cbn zeta.
        destruct (describe_fhir_datastore d s1) as [[u|e] s2]; [now left|].
        destruct (is_client_error e); now right.
      * rewrite (doctor_checks_bucket_failed b d e _ s1 Hb).
        destruct (is_client_error e); now right.
    + right. unfold outcome. rewrite doctor_missing; [reflexivity|].
      rewrite Hm. discriminate.
Qed.

End Status.

(** ** The local path of a bundle file *)

(** The successive [posixpath.join]s of a directory and names that need no
    care: one '/' before each name. *)
Lemma posixpath_joined (names : list string) :
  List.Forall (fun name => name <> "" /\ Py.endswith name "/" = false) names ->
  names <> [] ->
  forall start,
    start <> "" -> Py.endswith start "/" = false ->
    fold_left posixpath_join names start = start +:+ "/" +:+ Py.join "/" names.
Proof.
  induction 1 as [|name names [Hne Hend] Hrest IH]; [congruence|].
  intros _ start Hstart Hs. cbn [fold_left].
  assert (posixpath_join start name = start +:+ "/" +:+ name) as ->.
  { unfold posixpath_join. rewrite Hs.
    destruct start; [congruence|reflexivity]. }
  destruct names as [|next names]; [reflexivity|].
  rewrite IH.
  - rewrite join_cons. now rewrite !string_append_assoc.
  - congruence.
  - destruct start; [congruence|discriminate].
  - rewrite <- string_append_assoc.
    change "/" with (sep_str slash) in *. unfold sep_str in *.
    now rewrite endswith_char_append.
Qed.

Lemma endswith_slash_absent (name : string) :
  Py.contains name slash = false -> Py.endswith name "/" = false.
Proof.
  induction name as [|c name IH]; intros Hno; [reflexivity|].
  cbn [Py.contains] in Hno. apply orb_false_iff in Hno as [Hc Hrest].
  cbn [Py.endswith]. rewrite (IH Hrest), orb_false_r.
  change (String.eqb (String c name) "/")
    with (if Ascii.eqb c slash then String.eqb name "" else false).
  now rewrite Hc.
Qed.

(** X20.  On a POSIX host, where [os.path.join] is [posixpath.join] and
    the separator is '/': for a directory given without a trailing '/' and
    file names as [os.walk] gives them there, not empty and without a '/',
    the local path handed to [upload_file] is the directory, a '/' and the
    relative path of the file; for names without a backslash it is the
    directory, '/' and the object key. *)
Theorem file_path_is_dir_and_key (dir : string) (names : list string) :
  dir <> "" ->
  Py.endswith dir "/" = false ->
  names <> [] ->
  List.Forall (fun name => name <> "" /\ Py.contains name slash = false) names ->
  file_path_of posixpath_join dir names
  = dir +:+ "/" +:+ os_path_relpath slash (mkPath dir names)
  /\ (List.Forall (fun name => Py.contains name backslash = false) names ->
      file_path_of posixpath_join dir names
      = dir +:+ "/" +:+ object_name_of slash names).
Proof.
  intros Hdir Hend Hne Hnames.
  assert (file_path_of posixpath_join dir names = dir +:+ "/" +:+ Py.join "/" names)
    as Hpath.
  { apply posixpath_joined; try assumption.
    eapply List.Forall_impl; [|exact Hnames].
    intros name [Hname Hno]. split; [exact Hname|now apply endswith_slash_absent]. }
  split; [exact Hpath|]. intros Hplain. rewrite Hpath.
  rewrite object_name_slashes; [reflexivity|now left|exact Hplain].
Qed.

Lemma file_path_is_dir_and_key_witness :
  file_path_of posixpath_join "/data" ["p1"; "deep"; "b.json"] = "/data/p1/deep/b.json"
  /\ object_name_of slash ["p1"; "deep"; "b.json"] = "p1/deep/b.json".
Proof.
  destruct (file_path_is_dir_and_key "/data" ["p1"; "deep"; "b.json"])
    as [_ H]; try discriminate.
  - reflexivity.
  - repeat constructor; discriminate.
  - split; [|reflexivity]. rewrite H; [reflexivity|]. repeat constructor.
Defined.
